(** * cloudssh: the index lifecycle of [cloudssh.py]

    A shallow embedding of [src/cloudssh.py]: the staleness gate
    ([IndexProcessor.should_index]), the index writer
    ([IndexProcessor.update_index]), the query path
    ([IndexProcessor.search]) and the record source
    ([AwsProvider.lookup]).

    The program is effectful Python: it reads the wall clock, reads and
    rewrites a pickled timestamp file, appends to a log, mutates list
    objects and drives a whoosh index.  All of that lives in one explicit
    [world]; every method is a function in a state-and-exception monad
    over it. *)

From Stdlib Require Import ZArith QArith Ascii String List Lia Lqa Bool Sorted Permutation.
From stdpp Require Import gmap strings list.

Local Open Scope Z_scope.

(** ** datetime and timedelta

    Python's [datetime] has microsecond resolution.  A naive datetime is
    kept as its number of microseconds on the local clock, a [timedelta]
    as its total number of microseconds.  The attributes [days],
    [seconds] and [microseconds] are the normalised fields Python stores:
    [0 <= seconds < 86400] and [0 <= microseconds < 1000000], with the
    sign carried by [days] alone.  The year 1..9999 range of [datetime]
    is not modelled. *)
Module Datetime.

Definition datetime := Z.
Definition timedelta := Z.

Definition us_per_second : Z := 1000000.
Definition seconds_per_day : Z := 86400.

(** [timedelta(seconds=n)] for an integer [n]. *)
Definition of_seconds (n : Z) : timedelta := n * us_per_second.

(** [a - b] on two datetimes. *)
Definition diff (a b : datetime) : timedelta := a - b.

(** [a - d] for a datetime and a timedelta. *)
Definition minus (a : datetime) (d : timedelta) : datetime := a - d.

Definition days (d : timedelta) : Z := d / (seconds_per_day * us_per_second).
Definition seconds (d : timedelta) : Z := (d / us_per_second) mod seconds_per_day.
Definition microseconds (d : timedelta) : Z := d mod us_per_second.

(** [int(d.total_seconds())] for a non-negative [d]; in general the
    floor of the exact number of seconds. *)
Definition whole_seconds (d : timedelta) : Z := d / us_per_second.

End Datetime.

(** ** Values, files, log records and exceptions *)

(** What [pickle.load] can hand back: the program only ever dumps
    naive datetimes, but the file may hold any pickled object.  A
    [timedelta] is told apart because a datetime minus a timedelta is
    defined (and is a datetime); [PyOther] is any other object, on which
    [datetime.now() - o] raises [TypeError]. *)
Inductive pyobj :=
| PyDatetime (t : Datetime.datetime)
| PyTimedelta (d : Datetime.timedelta)
| PyOther.

(** Contents of a file that exists.  [Pickled o] is a byte stream
    from which [pickle.load] builds [o], such as [pickle.dump(o, ...)]
    writes (never of length zero); [Raw bs] is any byte content on
    which [pickle.load] raises, the empty file being [Raw []]. *)
Inductive file_content :=
| Pickled (o : pyobj)
| Raw (bs : list Byte.byte).

(** [os.path.getsize(path) > 0]. *)
Definition has_bytes (c : file_content) : bool :=
  match c with
  | Pickled _ => true
  | Raw bs => negb (Nat.eqb (List.length bs) 0)
  end.

(** Uncaught exceptions, by Python class; but [LoadError bs] is
    whatever [pickle.load] raises on the bytes [bs]: [EOFError] on the
    empty or a truncated stream, [UnpicklingError], [ValueError],
    [AttributeError], [ModuleNotFoundError] and others, as the bytes
    have it.  The model keeps the bytes and not the class. *)
Inductive exn :=
| FileNotFoundError
| LoadError (bs : list Byte.byte)
| TypeError
| AttributeError
| KeyError (key : string)
| EmptyIndexError
| QueryParserError.

(** One constructor per [logging.info] call of the source. *)
Inductive log_record :=
| LogReadingTtl
| LogTtlMissing
| LogGettingDelta
| LogTtlResult (b : bool)
| LogCreatedIndex
| LogUsingIndex
| LogStillValid
| LogIndexing (ip_address : string)
| LogReservations (n : nat)
| LogLookupReturned (n : nat)
| LogSearching (term : string)
| LogFound (n : nat).

(** ** The index store *)

(** The four stored fields of [instance_schema]. *)
Record document := Document {
  private_ip_address : string;
  name : string;
  tags : string;
  created_at : Datetime.datetime
}.

(** The committed state of the whoosh index in [index_directory_path]:
    its documents in document-number order and the generation of its
    table of contents, which every commit advances. *)
Record index_state := IndexState {
  generation : Z;
  documents : list document
}.

(** ** ServerInstance

    [fields] is a reference to a Python list object held in the heap of
    the [world]: two instances built from the same list share it. *)
Definition loc := positive.

Record ServerInstance := MkServerInstance {
  si_name : string;
  si_ip_address : string;
  si_fields : loc
}.

(** ** The world *)
Record world := World {
  clock : nat -> Datetime.datetime;  (* the successive readings of the local clock *)
  reads : nat;                       (* how many readings were taken *)
  utc_offset : Datetime.timedelta;   (* local time minus UTC *)
  ttl_file : option file_content;    (* [index_ttl_file]; [None]: no such file *)
  index_dir : option index_state;    (* [index_directory_path]; [None]: no such directory *)
  heap : gmap loc (list string);     (* Python list objects *)
  log : list log_record
}.

Definition set_reads (n : nat) (w : world) : world :=
  World (clock w) n (utc_offset w) (ttl_file w) (index_dir w) (heap w) (log w).
Definition set_ttl_file (f : option file_content) (w : world) : world :=
  World (clock w) (reads w) (utc_offset w) f (index_dir w) (heap w) (log w).
Definition set_index_dir (d : option index_state) (w : world) : world :=
  World (clock w) (reads w) (utc_offset w) (ttl_file w) d (heap w) (log w).
Definition set_heap (h : gmap loc (list string)) (w : world) : world :=
  World (clock w) (reads w) (utc_offset w) (ttl_file w) (index_dir w) h (log w).
Definition set_log (l : list log_record) (w : world) : world :=
  World (clock w) (reads w) (utc_offset w) (ttl_file w) (index_dir w) (heap w) l.

(** ** State and exception monad *)
Inductive result (A : Type) :=
| Val (a : A) (w : world)
| Exc (e : exn) (w : world).
Arguments Val {A} a w.
Arguments Exc {A} e w.

Definition M (A : Type) : Type := world -> result A.

Definition ret {A} (a : A) : M A := fun w => Val a w.
Definition raise {A} (e : exn) : M A := fun w => Exc e w.
Definition bind {A B} (m : M A) (k : A -> M B) : M B :=
  fun w => match m w with
           | Val a w' => k a w'
           | Exc e w' => Exc e w'
           end.

Notation "x <- m ;; k" := (bind m (fun x => k))
  (at level 100, m at next level, right associativity).
Notation "m ;;; k" := (bind m (fun _ => k))
  (at level 100, right associativity).

Definition final_world {A} (r : result A) : world :=
  match r with Val _ w => w | Exc _ w => w end.

(** *** Primitive effects *)

(** [logging.info(...)]. *)
Definition log_info (r : log_record) : M unit :=
  fun w => Val tt (set_log (log w ++ [r]) w).

(** [datetime.now()]. *)
Definition now : M Datetime.datetime :=
  fun w => Val (clock w (reads w)) (set_reads (S (reads w)) w).

(** [datetime.utcnow()]. *)
Definition utcnow : M Datetime.datetime :=
  fun w => Val (Datetime.minus (clock w (reads w)) (utc_offset w))
               (set_reads (S (reads w)) w).

(** [os.path.exists(self.index_ttl_file)]. *)
Definition ttl_exists : M bool :=
  fun w => Val (match ttl_file w with Some _ => true | None => false end) w.

(** [os.path.getsize(self.index_ttl_file) > 0]. *)
Definition ttl_has_bytes : M bool :=
  fun w => match ttl_file w with
           | Some c => Val (has_bytes c) w
           | None => Exc FileNotFoundError w
           end.

(** [open(self.index_ttl_file, 'wb')]: creates or truncates the file. *)
Definition ttl_open_wb : M unit :=
  fun w => Val tt (set_ttl_file (Some (Raw [])) w).

(** [pickle.dump(o, handle, pickle.HIGHEST_PROTOCOL)] on the freshly
    truncated file, then closing it. *)
Definition ttl_dump (o : pyobj) : M unit :=
  fun w => Val tt (set_ttl_file (Some (Pickled o)) w).

(** [open(self.index_ttl_file, 'rb')] followed by [pickle.load]; the
    source catches nothing of what [pickle.load] raises. *)
Definition ttl_load : M pyobj :=
  fun w => match ttl_file w with
           | None => Exc FileNotFoundError w
           | Some (Pickled o) => Val o w
           | Some (Raw bs) => Exc (LoadError bs) w
           end.

(** The value of [datetime.now() - last_indexing_time]: a timedelta
    when a datetime was subtracted, a datetime when a timedelta was. *)
Inductive difference :=
| IsTimedelta (d : Datetime.timedelta)
| IsDatetime (t : Datetime.datetime).

(** [datetime.now() - last_indexing_time], line 100, the right operand
    being whatever was unpickled. *)
Definition datetime_sub (a : Datetime.datetime) (o : pyobj) : M difference :=
  match o with
  | PyDatetime t => ret (IsTimedelta (Datetime.diff a t))
  | PyTimedelta d => ret (IsDatetime (Datetime.minus a d))
  | PyOther => raise TypeError
  end.

(** [delta.seconds], line 102: a datetime has no such attribute. *)
Definition get_seconds (delta : difference) : M Z :=
  match delta with
  | IsTimedelta d => ret (Datetime.seconds d)
  | IsDatetime _ => raise AttributeError
  end.

(** [instance.fields] dereferenced.  Python references never dangle;
    a location outside the heap reads as the empty list. *)
Definition read_list (l : loc) : M (list string) :=
  fun w => Val (heap w !!! l) w.

(** ** The whoosh index writer

    whoosh is a library the source calls; its writer is modelled by
    what its documentation promises.  [update_document] deletes the
    committed documents that carry the same value in the field marked
    [unique=True] ([private_ip_address]) and then adds the new
    document.  The documentation of [IndexWriter.update_document] is
    explicit that only a committed document is replaced: a document
    added earlier through the same writer, not yet committed, stays,
    and two calls with one unique value on one writer add two
    documents.  [commit] publishes the surviving and the added
    documents together, under the next generation.

    The unique field is analysed: line 80 gives [private_ip_address] a
    [StandardAnalyzer(stoplist=None)], so the terms the index holds for
    a document are the lower-cased tokens of its address, while
    [update_document] looks the new address up as it is, as one term.
    A committed document is therefore replaced when the new address is
    one of its terms. *)

(** [re]'s [\w] on a code point below 256. *)
Definition is_word_char (c : Ascii.ascii) : bool :=
  let n := Ascii.nat_of_ascii c in
  let between lo hi := Nat.leb lo n && Nat.leb n hi in
  (between 48 57 || between 65 90 || Nat.eqb n 95 || between 97 122
   || Nat.eqb n 170 || between 178 179 || Nat.eqb n 181 || between 185 186
   || between 188 190 || between 192 214 || between 216 246 || between 248 255)%nat.

(** [c.lower()] on a code point below 256. *)
Definition lower_char (c : Ascii.ascii) : Ascii.ascii :=
  let n := Ascii.nat_of_ascii c in
  let between lo hi := Nat.leb lo n && Nat.leb n hi in
  if (between 65 90 || between 192 214 || between 216 222)%nat
  then Ascii.ascii_of_nat (n + 32) else c.

Definition emit (token : string) : list string :=
  match token with
  | EmptyString => []
  | _ => [token]
  end.

(** The tokens of [StandardAnalyzer(stoplist=None)]: the matches of the
    pattern [\w+(\.?\w+)*] from left to right, lower-cased; without a
    stop list no token is filtered out.  [token] is the match read so
    far, empty between matches; a dot continues a match only between
    two word characters. *)
Fixpoint scan_tokens (text token : string) : list string :=
  match text with
  | EmptyString => emit token
  | String c rest =>
      if is_word_char c then
        scan_tokens rest (token ++ String (lower_char c) EmptyString)
      else if Ascii.eqb c "."%char
              && negb (String.eqb token EmptyString)
              && match rest with
                 | String c' _ => is_word_char c'
                 | EmptyString => false
                 end
      then scan_tokens rest (token ++ String "."%char EmptyString)
      else emit token ++ scan_tokens rest EmptyString
  end.

Definition standard_tokens (text : string) : list string :=
  scan_tokens text EmptyString.

(** The terms the index holds in the unique field of a document. *)
Definition unique_terms (d : document) : list string :=
  standard_tokens (private_ip_address d).

(** Whether the look-up of [value] as one term finds the document. *)
Definition matches_unique (value : string) (d : document) : bool :=
  List.existsb (String.eqb value) (unique_terms d).
Record writer := Writer {
  base : index_state;          (* the index as it was when the writer was opened *)
  kept : list document;        (* committed documents not marked deleted *)
  added : list document        (* documents buffered by this writer *)
}.

Definition open_writer (ix : index_state) : writer :=
  Writer ix (documents ix) [].

Definition update_document (d : document) (wr : writer) : writer :=
  Writer (base wr)
         (List.filter (fun o => negb (matches_unique (private_ip_address d) o)) (kept wr))
         (added wr ++ [d]).

Definition commit (wr : writer) : index_state :=
  IndexState (generation (base wr) + 1) (kept wr ++ added wr).

(** ** IndexProcessor *)

(** The part of [config['index']] the processor reads. *)
Record index_config := IndexConfig { ttl : Z }.

Section IndexProcessor.

Variable config : index_config.

(** [IndexProcessor.should_index], lines 88-110.  The [OverflowError]
    of line 94 for a TTL beyond the range of [datetime] is outside the
    model, as that range is. *)
Definition should_index : M bool :=
  log_info LogReadingTtl ;;;
  e <- ttl_exists ;;
  fresh_needed <- (if negb e then ret true
                   else (s <- ttl_has_bytes ;; ret (negb s))) ;;
  (if fresh_needed : bool then
     log_info LogTtlMissing ;;;
     ttl_open_wb ;;;
     t <- now ;;
     ttl_dump (PyDatetime (Datetime.minus t (Datetime.of_seconds (ttl config + 1))))
   else ret tt) ;;;
  log_info LogGettingDelta ;;;
  last_indexing_time <- ttl_load ;;
  t <- now ;;
  delta <- datetime_sub t last_indexing_time ;;
  seconds <- get_seconds delta ;;
  let should := Z.gtb seconds (ttl config) in
  log_info (LogTtlResult should) ;;;
  (if should then
     ttl_open_wb ;;;
     t' <- now ;;
     ttl_dump (PyDatetime t')
   else ret tt) ;;;
  ret should.

(** [IndexProcessor.get_index], lines 112-123: [os.mkdir] and
    [index.create_in] when the directory is missing, [index.open_dir]
    otherwise.  A directory that exists is taken to hold a readable
    index: [index.open_dir] raises on one that does not, a state the
    world does not have. *)
Definition get_index : M unit :=
  fun w => match index_dir w with
           | None => log_info LogCreatedIndex
                       (set_index_dir (Some (IndexState 0 [])) w)
           | Some _ => log_info LogUsingIndex w
           end.

(** [self.instance_index.writer()]. *)
Definition index_writer : M writer :=
  fun w => match index_dir w with
           | Some ix => Val (open_writer ix) w
           | None => Exc EmptyIndexError w
           end.

(** [writer.commit()]. *)
Definition writer_commit (wr : writer) : M unit :=
  fun w => Val tt (set_index_dir (Some (commit wr)) w).

(** The body of the [for instance in instances] loop, lines 136-143.
    The keyword arguments are evaluated left to right: the list behind
    [instance.fields] is read, and joined, when the document is
    written. *)
Fixpoint index_instances (instances : list ServerInstance) (wr : writer) : M writer :=
  match instances with
  | [] => ret wr
  | instance :: rest =>
      fields <- read_list (si_fields instance) ;;
      t <- utcnow ;;
      let wr' := update_document
                   (Document (si_ip_address instance) (si_name instance)
                             (String.concat " " fields) t) wr in
      log_info (LogIndexing (si_ip_address instance)) ;;;
      index_instances rest wr'
  end.

(** [IndexProcessor.update_index], lines 125-144.  It returns [None]
    on both paths. *)
Definition update_index (instances : list ServerInstance) : M unit :=
  due <- should_index ;;
  if negb due then
    log_info LogStillValid ;;;
    ret tt
  else
    wr <- index_writer ;;
    wr' <- index_instances instances wr ;;
    writer_commit wr'.

End IndexProcessor.

(** ** The query engine *)

(** The query objects the whoosh parser builds.  [NullQuery] is what it
    returns when nothing is left to search for; its matcher matches no
    document. *)
#[local] Unset Elimination Schemes.
Inductive query :=
| NullQuery
| Every
| Term (fieldname text : string)
| And (qs : list query)
| Or (qs : list query)
| Not (q : query).
#[local] Set Elimination Schemes.

(** A search hit: the stored fields and the relevance score. *)
Record hit := Hit {
  hit_doc : document;
  hit_score : Q
}.

(** The sort key of [sortedby=[scores, name_field_facet]]: whoosh's
    [ScoreFacet] keys a document by [0 - score], so that ascending keys
    put the best score first; [FieldFacet("name")] keys it by its name.
    Keys compare as Python tuples do. *)
Definition score_key (h : hit) : Q := (0 - hit_score h)%Q.
Definition name_key (h : hit) : string := name (hit_doc h).

Definition key_leb (a b : hit) : bool :=
  if Qeq_bool (score_key a) (score_key b)
  then String.leb (name_key a) (name_key b)
  else Qle_bool (score_key a) (score_key b).

Fixpoint insert_hit (h : hit) (l : list hit) : list hit :=
  match l with
  | [] => [h]
  | x :: rest => if key_leb h x then h :: l else x :: insert_hit h rest
  end.

Fixpoint sort_hits (l : list hit) : list hit :=
  match l with
  | [] => []
  | h :: rest => insert_hit h (sort_hits rest)
  end.

Section QueryEngine.

(** [MultifieldParser(["name", "tags"], schema).parse]; [None] when it
    raises [QueryParserError]. *)
Variable qparse : string -> option query.

(** The scorer (BM25F by default) run by the matcher of a query:
    [Some s] for a document that matches with score [s]. *)
Variable weighting : query -> document -> option Q.

Definition matcher (q : query) (d : document) : option Q :=
  match q with
  | NullQuery => None
  | _ => weighting q d
  end.

Definition collect (q : query) (docs : list document) : list hit :=
  omap (fun d => Hit d <$> matcher q d) docs.

(** [searcher.search(q, limit=n, sortedby=[scores, name_field_facet])]. *)
Definition searcher_search (q : query) (limit : nat) (docs : list document) : list hit :=
  firstn limit (sort_hits (collect q docs)).

Definition qp_parse (term : string) : M query :=
  match qparse term with
  | Some q => ret q
  | None => raise QueryParserError
  end.

(** [self.instance_index.searcher()]. *)
Definition index_searcher : M index_state :=
  fun w => match index_dir w with
           | Some ix => Val ix w
           | None => Exc EmptyIndexError w
           end.

(** [IndexProcessor.search], lines 146-161. *)
Definition search (query_search_term : string) : M (list hit) :=
  q <- qp_parse query_search_term ;;
  ix <- index_searcher ;;
  ret (searcher_search q 15 (documents ix)).

(** The search invocation of the script, lines 236-251, up to the
    list of results handed to the prompt.  Nothing here catches an
    exception. *)
Definition search_invocation (search_term : string) : M (list hit) :=
  if (0 <? String.length search_term)%nat then
    log_info (LogSearching search_term) ;;;
    results <- search search_term ;;
    log_info (LogFound (List.length results)) ;;;
    ret results
  else ret [].

End QueryEngine.

(** ** AwsProvider *)

Record ec2_tag := Ec2Tag { Key : string; Value : string }.

(** One entry of [reservation['Instances']]: its ['Tags'] entry, which
    the API omits for an instance without tags, and its scalar
    attributes by name. *)
Record ec2_instance := Ec2Instance {
  Tags : option (list ec2_tag);
  attributes : gmap string string
}.

(** [reservation['Instances']]. *)
Definition reservation := list ec2_instance.

Record ec2_filter := Ec2Filter {
  filter_Name : string;
  filter_Values : list string
}.

Record aws_config := AwsConfig {
  filters : list ec2_filter;
  address_field : string
}.

(** [[]]: a new list object. *)
Definition new_list : M loc :=
  fun w => let l := fresh (dom (heap w)) in
           Val l (set_heap (<[l := []]> (heap w)) w).

(** [fields.append(v)]. *)
Definition list_append (l : loc) (v : string) : M unit :=
  fun w => Val tt (set_heap (<[l := (heap w !!! l) ++ [v]]> (heap w)) w).

Section AwsProvider.

Variable config : aws_config.

(** [ec2client.describe_instances(Filters=...)['Reservations']]. *)
Variable describe_instances : list ec2_filter -> list reservation.

(** The [for tag in instance['Tags']] loop, lines 201-205. *)
Fixpoint scan_tags (instance_fields : loc) (tags : list ec2_tag)
         (instance_name : string) : M string :=
  match tags with
  | [] => ret instance_name
  | tag :: rest =>
      let instance_name' :=
        if String.eqb (Key tag) "Name" then Value tag else instance_name in
      list_append instance_fields (Value tag) ;;;
      scan_tags instance_fields rest instance_name'
  end.

(** The [for instance in reservation['Instances']] loop, lines
    199-211. *)
Fixpoint scan_instances (instance_fields : loc) (insts : list ec2_instance)
         (instances : list ServerInstance) : M (list ServerInstance) :=
  match insts with
  | [] => ret instances
  | instance :: rest =>
      tags <- match Tags instance with
              | Some ts => ret ts
              | None => raise (KeyError "Tags")
              end ;;
      instance_name <- scan_tags instance_fields tags "" ;;
      address <- match attributes instance !! address_field config with
                 | Some a => ret a
                 | None => raise (KeyError (address_field config))
                 end ;;
      scan_instances instance_fields rest
        (instances ++ [MkServerInstance instance_name address instance_fields])
  end.

(** The [for reservation in response['Reservations']] loop. *)
Fixpoint scan_reservations (instance_fields : loc) (rs : list reservation)
         (instances : list ServerInstance) : M (list ServerInstance) :=
  match rs with
  | [] => ret instances
  | r :: rest =>
      instances' <- scan_instances instance_fields r instances ;;
      scan_reservations instance_fields rest instances'
  end.

(** [AwsProvider.lookup], lines 182-214.  Of the three lists the
    method creates, [instance_filters] and [instances] are referred to
    from one place only and are kept as values; [instance_fields] is
    handed to every [ServerInstance] and lives in the heap. *)
Definition lookup : M (list ServerInstance) :=
  instance_fields <- new_list ;;
  let instance_filters :=
    List.map (fun f => Ec2Filter (filter_Name f) (filter_Values f)) (filters config) in
  let response := describe_instances instance_filters in
  log_info (LogReservations (List.length response)) ;;;
  instances <- scan_reservations instance_fields response [] ;;
  log_info (LogLookupReturned (List.length instances)) ;;;
  ret instances.

End AwsProvider.

(** ** The script

    Lines 217-239: every provider named [aws] is looked up, the
    processor is built (which opens or creates the index), the index is
    updated and the search term, if it is not empty, is searched. *)
Section Script.

Variable providers : list (string * aws_config).
Variable describe_instances : list ec2_filter -> list reservation.
Variable index_cfg : index_config.
Variable qparse : string -> option query.
Variable weighting : query -> document -> option Q.

Definition provider_instances : list aws_config :=
  omap (fun p => if String.eqb (fst p) "aws" then Some (snd p) else None) providers.

Fixpoint lookup_all (ps : list aws_config) (server_instances : list ServerInstance)
  : M (list ServerInstance) :=
  match ps with
  | [] => ret server_instances
  | p :: rest =>
      found <- lookup p describe_instances ;;
      lookup_all rest (server_instances ++ found)
  end.

Definition script (search_term : string) : M (list hit) :=
  server_instances <- lookup_all provider_instances [] ;;
  get_index ;;;
  update_index index_cfg server_instances ;;;
  search_invocation qparse weighting search_term.

End Script.

(** ** The selection prompt

    Lines 240-266: every result becomes one line of the prompt, and the
    first space-delimited token of the chosen line is handed to [ssh].
    A character of a Rocq string stands for one code point below 256. *)

(** [c.isspace()] for a code point below 256. *)
Definition py_isspace (c : Ascii.ascii) : bool :=
  let n := Ascii.nat_of_ascii c in
  (Nat.leb 9 n && Nat.leb n 13) || (Nat.leb 28 n && Nat.leb n 32)
  || Nat.eqb n 133 || Nat.eqb n 160.

(** [s.lstrip()]. *)
Fixpoint lstrip (s : string) : string :=
  match s with
  | EmptyString => EmptyString
  | String c rest => if py_isspace c then lstrip rest else s
  end.

(** [s.rstrip()]. *)
Fixpoint rstrip (s : string) : string :=
  match s with
  | EmptyString => EmptyString
  | String c rest =>
      match rstrip rest with
      | EmptyString => if py_isspace c then EmptyString else String c EmptyString
      | kept_rest => String c kept_rest
      end
  end.

(** [s.strip()]. *)
Definition strip (s : string) : string := lstrip (rstrip s).

Fixpoint spaces (n : nat) : string :=
  match n with
  | O => EmptyString
  | S k => String " "%char (spaces k)
  end.

(** [s.ljust(width)]: padded with spaces on the right, never cut. *)
Definition ljust (s : string) (width : nat) : string :=
  (s ++ spaces (width - String.length s))%string.

Definition digit (n : Z) : Ascii.ascii :=
  match n with
  | 0 => "0" | 1 => "1" | 2 => "2" | 3 => "3" | 4 => "4"
  | 5 => "5" | 6 => "6" | 7 => "7" | 8 => "8" | _ => "9"
  end%char.

(** A number below 100 in two decimal digits, as [%H], [%M] and [%S]
    print it. *)
Definition two_digits (n : Z) : string :=
  String (digit (n / 10)) (String (digit (n mod 10)) EmptyString).

(** [t.strftime("%H:%M:%S")], the microsecond count of a datetime
    starting at a midnight. *)
Definition strftime_HMS (t : Datetime.datetime) : string :=
  let s := Datetime.whole_seconds t in
  (two_digits ((s / 3600) mod 24) ++ ":" ++ two_digits ((s / 60) mod 60)
   ++ ":" ++ two_digits (s mod 60))%string.

(** One entry of [prompt_choices], lines 245-251. *)
Definition prompt_choice (result : hit) : string :=
  strip (ljust (private_ip_address (hit_doc result)) 15 ++ " | "
         ++ ljust (name (hit_doc result)) 40 ++ " | "
         ++ strftime_HMS (created_at (hit_doc result)))%string.

(** [line.split(' ')[0]]. *)
Fixpoint first_token (line : string) : string :=
  match line with
  | EmptyString => EmptyString
  | String c rest =>
      if Ascii.eqb c " "%char then EmptyString else String c (first_token rest)
  end.

Section Selector.

(** [inquirer.prompt(questions)]: the chosen line, [None] when the
    prompt was aborted and [answers] is [None]. *)
Variable inquirer_prompt : list string -> option string.

(** Lines 242-266: the command passed to [subprocess.call], if any.
    Without results nothing is asked; the [TypeError] of subscripting
    [None] is caught and passed over. *)
Definition connect (results : list hit) : option string :=
  match results with
  | [] => None
  | _ =>
      match inquirer_prompt (List.map prompt_choice results) with
      | Some line => Some ("ssh " ++ first_token line)%string
      | None => None
      end
  end.

End Selector.

(** * Vocabulary of the properties

    Functions and predicates the statements below are written in, and
    the concrete worlds of the examples. *)

(** The world the gate leaves behind when it has read a persisted
    timestamp: the log it wrote, and the rewritten file when due. *)
Definition gate_outcome (cfg : index_config) (w : world) (t : Datetime.datetime)
  (pre : list log_record) (r : nat) : result bool :=
  let due := Datetime.seconds (Datetime.diff (clock w r) t) >? ttl cfg in
  Val due
    (World (clock w) (if due then S (S r) else S r) (utc_offset w)
       (Some (Pickled (PyDatetime (if due then clock w (S r) else t))))
       (index_dir w) (heap w)
       (log w ++ pre ++ [LogGettingDelta; LogTtlResult due])).

(** The exception lines 100-102 end in when the unpickled object is no
    datetime. *)
Definition object_error (o : pyobj) : exn :=
  match o with
  | PyTimedelta _ => AttributeError
  | _ => TypeError
  end.

(** A missing file and a file of length zero both take the bootstrap
    path: the sentinel is dumped first and then read back. *)
Definition no_state (w : world) : Prop :=
  ttl_file w = None \/ ttl_file w = Some (Raw []).

Definition sentinel (cfg : index_config) (w : world) : Datetime.datetime :=
  Datetime.minus (clock w (reads w)) (Datetime.of_seconds (ttl cfg + 1)).

(** The log records of one call of the gate. *)
Definition is_gate_check (r : log_record) : bool :=
  match r with LogReadingTtl => true | _ => false end.

Definition gate_checks (l : list log_record) : nat :=
  List.length (List.filter is_gate_check l).

(** A clock that advances by one microsecond per reading. *)
Definition ticking (start : Datetime.datetime) : nat -> Datetime.datetime :=
  fun n => start + Z.of_nat n.

Definition world_at (start : Datetime.datetime) (f : option file_content)
  (ix : option index_state) : world :=
  World (ticking start) 0 0 f ix ∅ [].

(** Noon of some day, in microseconds. *)
Definition noon : Datetime.datetime := Datetime.of_seconds (738000 * 86400 + 43200).

(** The write phase of [update_index], lines 135-144: what runs once
    the gate has answered true. *)
Definition write_phase (instances : list ServerInstance) : M unit :=
  wr <- index_writer ;;
  wr' <- index_instances instances wr ;;
  writer_commit wr'.

Definition addresses (docs : list document) : list string :=
  List.map private_ip_address docs.


(** A character that can stand in a term of the unique field: a dot,
    or a word character that lower-casing leaves as it is. *)
Definition is_term_char (c : Ascii.ascii) : bool :=
  Ascii.eqb c "."%char || (is_word_char c && Ascii.eqb (lower_char c) c).

Fixpoint only_term_chars (s : string) : bool :=
  match s with
  | EmptyString => true
  | String c rest => is_term_char c && only_term_chars rest
  end.


(** Whether the look-up of some address of the batch finds a committed
    document. *)
Definition in_batch (docs : list document) (o : document) : bool :=
  List.existsb (fun d => matches_unique (private_ip_address d) o) docs.

(** One writer session as a function on the committed index: every
    document of the batch goes through [update_document], then
    [commit]. *)
Definition write_batch (docs : list document) (ix : index_state) : index_state :=
  commit (List.fold_left (fun wr d => update_document d wr) docs (open_writer ix)).


(** The documents [update_index] builds from the instances: the list
    behind [fields] is read from the heap [h], and the clock [c] is read
    once per instance, starting at reading [r]. *)
Fixpoint batch_documents (c : nat -> Datetime.datetime) (u : Datetime.timedelta)
  (h : gmap loc (list string)) (r : nat) (instances : list ServerInstance)
  : list document :=
  match instances with
  | [] => []
  | i :: rest =>
      Document (si_ip_address i) (si_name i)
               (String.concat " " (h !!! si_fields i))
               (Datetime.minus (c r) u)
      :: batch_documents c u h (S r) rest
  end.


(** [a] may stand before [b] in a result list: it has the greater
    score, or the same score and a name that is not greater. *)
Definition ranked_before (a b : hit) : Prop :=
  (hit_score b < hit_score a)%Q
  \/ ((hit_score a == hit_score b)%Q
      /\ String.leb (name (hit_doc a)) (name (hit_doc b)) = true).

(** *** A small parser and scorer for the examples

    The parser rejects the lone opening parenthesis, returns
    [NullQuery] for a blank term and a term query on [tags] otherwise;
    the scorer gives 2 to a document named by the term and 1 to a
    document whose tags are the term. *)
Definition is_space (c : Ascii.ascii) : bool :=
  let n := Ascii.nat_of_ascii c in
  Nat.eqb n 32 || (Nat.leb 9 n && Nat.leb n 13).

(** [term.strip() == ''] on ASCII text. *)
Fixpoint blank (s : string) : bool :=
  match s with
  | EmptyString => true
  | String c rest => is_space c && blank rest
  end.

Definition example_parser (term : string) : option query :=
  if blank term then Some NullQuery
  else if String.eqb term "(" then None
  else Some (Term "tags" term).


Definition example_weighting (q : query) (d : document) : option Q :=
  match q with
  | Term _ text =>
      if String.eqb text (name d) then Some 2%Q
      else if String.eqb text (tags d) then Some 1%Q
      else None
  | _ => None
  end.

Definition example_index : index_state :=
  IndexState 3 [Document "10.0.0.1" "web-1" "prod" noon;
                Document "10.0.0.2" "db-1" "prod" noon;
                Document "10.0.0.3" "cache-1" "dev" noon;
                Document "10.0.0.4" "prod" "edge" noon].

(** What [lookup] is expected to read off one instance. *)
Definition tag_values (i : ec2_instance) : list string :=
  match Tags i with
  | Some ts => List.map Value ts
  | None => []
  end.

(** The name the tag loop ends with: the value of the last tag whose
    key is [Name], the empty string when there is none. *)
Definition name_of_tags (tags : list ec2_tag) (start : string) : string :=
  List.fold_left
    (fun n tag => if String.eqb (Key tag) "Name" then Value tag else n) tags start.

Definition instance_name (i : ec2_instance) : string :=
  match Tags i with
  | Some ts => name_of_tags ts ""
  | None => ""%string
  end.

Definition instance_address (cfg : aws_config) (i : ec2_instance) : string :=
  default ""%string (attributes i !! address_field cfg).

(** An instance [lookup] can process without a [KeyError]: it has a
    ['Tags'] entry and the configured address attribute. *)
Definition complete (cfg : aws_config) (i : ec2_instance) : Prop :=
  is_Some (Tags i) /\ is_Some (attributes i !! address_field cfg).

(** The record built for an instance, with the list at [l] as its
    fields. *)
Definition server_of (cfg : aws_config) (l : loc) (i : ec2_instance) : ServerInstance :=
  MkServerInstance (instance_name i) (instance_address cfg i) l.

(** Two instances in one reservation, each with tags of its own. *)
Definition example_config : aws_config :=
  AwsConfig [Ec2Filter "instance-state-name" ["running"]] "PrivateIpAddress".

Definition example_response : list reservation :=
  [[Ec2Instance (Some [Ec2Tag "Name" "web-1"; Ec2Tag "env" "prod"])
                {["PrivateIpAddress" := "10.0.0.1"]};
    Ec2Instance (Some [Ec2Tag "Name" "db-1"; Ec2Tag "env" "dev"])
                {["PrivateIpAddress" := "10.0.0.2"]}]].

Definition example_ec2 (fs : list ec2_filter) : list reservation := example_response.

(** An instance the API returned without any tag. *)
Definition untagged_response : list reservation :=
  [[Ec2Instance (Some [Ec2Tag "Name" "web-1"]) {["PrivateIpAddress" := "10.0.0.1"]};
    Ec2Instance None {["PrivateIpAddress" := "10.0.0.2"]}]].

(** Whether a tag is keyed [Name], as line 202 compares it. *)
Definition is_name_tag (tag : ec2_tag) : bool := String.eqb (Key tag) "Name".

(** Two [Name] tags on one instance, and none on the other. *)
Definition renamed_response : list reservation :=
  [[Ec2Instance (Some [Ec2Tag "Name" "old"; Ec2Tag "env" "prod"; Ec2Tag "Name" "new"])
                {["PrivateIpAddress" := "10.0.0.1"]};
    Ec2Instance (Some [Ec2Tag "name" "lower"]) {["PrivateIpAddress" := "10.0.0.2"]}]].

(** No character of the string is whitespace. *)
Fixpoint free_of_whitespace (s : string) : bool :=
  match s with
  | EmptyString => true
  | String c rest => negb (py_isspace c) && free_of_whitespace rest
  end.

(** Every character of the string is whitespace. *)
Fixpoint only_whitespace (s : string) : bool :=
  match s with
  | EmptyString => true
  | String c rest => py_isspace c && only_whitespace rest
  end.

(** * Properties *)

(** ** timedelta normal form *)

Lemma timedelta_normal_form (d : Datetime.timedelta) :
  d = Datetime.days d * (Datetime.seconds_per_day * Datetime.us_per_second)
      + Datetime.seconds d * Datetime.us_per_second
      + Datetime.microseconds d
  /\ 0 <= Datetime.seconds d < Datetime.seconds_per_day
  /\ 0 <= Datetime.microseconds d < Datetime.us_per_second.
Proof.
  unfold Datetime.days, Datetime.seconds, Datetime.microseconds,
    Datetime.seconds_per_day, Datetime.us_per_second.
  pose proof (Z.div_mod d 1000000 ltac:(lia)) as Hus.
  pose proof (Z.div_mod (d / 1000000) 86400 ltac:(lia)) as Hs.
  pose proof (Z.mod_pos_bound d 1000000 ltac:(lia)).
  pose proof (Z.mod_pos_bound (d / 1000000) 86400 ltac:(lia)).
  replace (86400 * 1000000) with (1000000 * 86400) by lia.
  rewrite <- Z.div_div by lia.
  repeat split; lia.
Qed.

Lemma seconds_of_small (d : Datetime.timedelta) :
  0 <= d < Datetime.of_seconds Datetime.seconds_per_day ->
  Datetime.seconds d = Datetime.whole_seconds d.
Proof.
  unfold Datetime.seconds, Datetime.whole_seconds, Datetime.of_seconds,
    Datetime.seconds_per_day, Datetime.us_per_second.
  intros Hd. apply Z.mod_small. split.
  - apply Z.div_pos; lia.
  - apply Z.div_lt_upper_bound; lia.
Qed.

#[local] Arguments Datetime.seconds : simpl never.
#[local] Arguments Datetime.diff : simpl never.
#[local] Arguments Datetime.minus : simpl never.
#[local] Arguments Datetime.of_seconds : simpl never.
#[local] Arguments Z.gtb : simpl never.
#[local] Arguments Z.add : simpl never.

(** ** The staleness gate *)

Ltac run_gate :=
  unfold should_index, bind, ret, raise, log_info, ttl_exists, ttl_has_bytes,
    ttl_open_wb, ttl_dump, ttl_load, now, datetime_sub, get_seconds,
    set_log, set_reads, set_ttl_file; simpl.

Lemma should_index_persisted cfg w t :
  ttl_file w = Some (Pickled (PyDatetime t)) ->
  should_index cfg w = gate_outcome cfg w t [LogReadingTtl] (reads w).
Proof.
  destruct w as [c r u f ix h l]; simpl. intros ->.
  unfold gate_outcome; run_gate.
  destruct (Datetime.seconds (Datetime.diff (c r) t) >? ttl cfg); simpl;
    rewrite <- !app_assoc; reflexivity.
Qed.

Lemma should_index_no_state cfg w :
  no_state w ->
  should_index cfg w =
  gate_outcome cfg w (sentinel cfg w) [LogReadingTtl; LogTtlMissing] (S (reads w)).
Proof.
  destruct w as [c r u f ix h l]; unfold no_state, sentinel; simpl.
  intros [-> | ->]; unfold gate_outcome; run_gate;
    destruct (Datetime.seconds _ >? ttl cfg); simpl;
    rewrite <- !app_assoc; reflexivity.
Qed.

Lemma should_index_corrupt cfg w b bs :
  ttl_file w = Some (Raw (b :: bs)) ->
  should_index cfg w =
  Exc (LoadError (b :: bs)) (set_log (log w ++ [LogReadingTtl; LogGettingDelta]) w).
Proof.
  destruct w as [c r u f ix h l]; simpl. intros ->.
  run_gate. rewrite <- !app_assoc; reflexivity.
Qed.

Lemma should_index_other_object cfg w o :
  ttl_file w = Some (Pickled o) ->
  (forall t, o <> PyDatetime t) ->
  should_index cfg w =
  Exc (object_error o)
    (set_reads (S (reads w)) (set_log (log w ++ [LogReadingTtl; LogGettingDelta]) w)).
Proof.
  destruct w as [c r u f ix h l]; simpl. intros -> Hno.
  destruct o as [t | d |]; [destruct (Hno t eq_refl) | |];
    run_gate; rewrite <- !app_assoc; reflexivity.
Qed.

(** Every file state is one of the four above. *)
Lemma ttl_file_cases (w : world) :
  no_state w
  \/ (exists t, ttl_file w = Some (Pickled (PyDatetime t)))
  \/ (exists o, ttl_file w = Some (Pickled o) /\ forall t, o <> PyDatetime t)
  \/ (exists b bs, ttl_file w = Some (Raw (b :: bs))).
Proof.
  unfold no_state. destruct (ttl_file w) as [[[t | d |] | [| b bs]] |]; eauto 8;
    right; right; left; eexists; (split; [reflexivity | discriminate]).
Qed.

Lemma gate_checks_app l1 l2 :
  gate_checks (l1 ++ l2) = (gate_checks l1 + gate_checks l2)%nat.
Proof. unfold gate_checks. rewrite List.filter_app, List.length_app. reflexivity. Qed.

(** What a returning call of the gate leaves untouched, and what it
    logs. *)
Lemma should_index_frame cfg w b w' :
  should_index cfg w = Val b w' ->
  clock w' = clock w /\ utc_offset w' = utc_offset w
  /\ index_dir w' = index_dir w /\ heap w' = heap w
  /\ gate_checks (log w') = S (gate_checks (log w)).
Proof.
  destruct (ttl_file_cases w) as [H | [[t H] | [(o & H & Hno) | (x & bs & H)]]].
  - rewrite (should_index_no_state cfg w H). unfold gate_outcome.
    intros [= <- <-]; simpl. rewrite gate_checks_app. cbn. repeat split; lia.
  - rewrite (should_index_persisted cfg w t H). unfold gate_outcome.
    intros [= <- <-]; simpl. rewrite gate_checks_app. cbn. repeat split; lia.
  - rewrite (should_index_other_object cfg w o H Hno). discriminate.
  - rewrite (should_index_corrupt cfg w x bs H). discriminate.
Qed.

(** C1: with a persisted timestamp and [ttl >= 0], [should_index]
    returns, and it returns true exactly when the [seconds] component of
    [now - last_refresh_at] is greater than [ttl].  Only that component
    is compared: when it is at most [ttl], the gate answers false even
    though the whole number of elapsed seconds exceeds [ttl], which
    happens once a day or more has elapsed. *)
Theorem should_index_compares_seconds_component cfg w t :
  0 <= ttl cfg ->
  ttl_file w = Some (Pickled (PyDatetime t)) ->
  let elapsed := Datetime.diff (clock w (reads w)) t in
  exists b w',
    should_index cfg w = Val b w'
    /\ (b = true <-> Datetime.seconds elapsed > ttl cfg)
    /\ (Datetime.seconds elapsed <= ttl cfg < Datetime.whole_seconds elapsed ->
        b = false).
Proof.
  intros _ Hfile elapsed.
  rewrite (should_index_persisted cfg w t Hfile). unfold gate_outcome.
  fold elapsed. eexists _, _. split; [reflexivity |].
  destruct (Z.gtb_spec (Datetime.seconds elapsed) (ttl cfg));
    (split; [split |]); intros; solve [reflexivity | lia | congruence].
Qed.

(** One day and five seconds after the last refresh, with a TTL of five
    minutes, the gate is not due. *)
Lemma should_index_compares_seconds_component_witness :
  let cfg := IndexConfig 300 in
  let t := noon - Datetime.of_seconds 86405 in
  let w := world_at noon (Some (Pickled (PyDatetime t))) None in
  0 <= ttl cfg
  /\ ttl_file w = Some (Pickled (PyDatetime t))
  /\ exists b w',
       should_index cfg w = Val b w'
       /\ (b = true <-> 5 > 300)
       /\ (5 <= 300 < 86405 -> b = false).
Proof.
  intros cfg t w. split; [simpl; lia |]. split; [reflexivity |].
  apply (should_index_compares_seconds_component cfg w t); [simpl; lia | reflexivity].
Defined.

(** The bootstrap path when the sentinel does what it is there for: if
    [ttl + 1] seconds plus the time between the two clock readings stay
    below one day, the first call is due. *)
Lemma first_run_due cfg w :
  no_state w ->
  0 <= ttl cfg ->
  let drift := Datetime.diff (clock w (S (reads w))) (clock w (reads w)) in
  0 <= drift ->
  Datetime.of_seconds (ttl cfg + 1) + drift < Datetime.of_seconds Datetime.seconds_per_day ->
  exists w', should_index cfg w = Val true w'.
Proof.
  intros Hno Httl drift Hdrift Hday.
  rewrite (should_index_no_state cfg w Hno). unfold gate_outcome, sentinel.
  set (d := Datetime.diff _ _).
  assert (Hd : d = Datetime.of_seconds (ttl cfg + 1) + drift).
  { unfold d, drift, Datetime.diff, Datetime.minus. lia. }
  assert (Hs : Datetime.seconds d > ttl cfg).
  { rewrite seconds_of_small
      by (rewrite Hd; unfold Datetime.of_seconds, Datetime.us_per_second in *; lia).
    rewrite Hd. unfold Datetime.whole_seconds, Datetime.of_seconds,
      Datetime.us_per_second in *.
    assert (ttl cfg + 1 <= ((ttl cfg + 1) * 1000000 + drift) / 1000000)
      by (apply Z.div_le_lower_bound; lia).
    lia. }
  destruct (Z.gtb_spec (Datetime.seconds d) (ttl cfg)); [| lia].
  eexists; reflexivity.
Qed.

(** With a TTL of 86399 seconds or more the gate is never due, whatever
    the file holds: the [seconds] component never exceeds 86399. *)
Lemma gate_never_due_from_day_ttl cfg w b w' :
  86399 <= ttl cfg ->
  should_index cfg w = Val b w' ->
  b = false.
Proof.
  intros Httl.
  assert (Hs : forall d, (Datetime.seconds d >? ttl cfg) = false).
  { intros d. destruct (timedelta_normal_form d) as (_ & Hsec & _).
    unfold Datetime.seconds_per_day in Hsec.
    destruct (Z.gtb_spec (Datetime.seconds d) (ttl cfg)); [lia | reflexivity]. }
  destruct (ttl_file_cases w) as [H | [[t H] | [(o & H & Hno) | (x & bs & H)]]].
  - rewrite (should_index_no_state cfg w H). unfold gate_outcome.
    rewrite Hs. congruence.
  - rewrite (should_index_persisted cfg w t H). unfold gate_outcome.
    rewrite Hs. congruence.
  - rewrite (should_index_other_object cfg w o H Hno). discriminate.
  - rewrite (should_index_corrupt cfg w x bs H). discriminate.
Qed.

(** C2: the first run with a TTL of 86399 seconds.  No state file
    exists; the sentinel [now - (ttl + 1)] is dumped, one whole day
    before now, and read back; its [seconds] component is 0, so the call
    returns false and the sentinel stays in the file. *)
Theorem first_run_not_due_with_day_ttl :
  should_index (IndexConfig 86399) (world_at noon None None)
  = Val false
      (World (ticking noon) 2 0
         (Some (Pickled (PyDatetime (noon - Datetime.of_seconds 86400))))
         None ∅
         [LogReadingTtl; LogTtlMissing; LogGettingDelta; LogTtlResult false]).
Proof. reflexivity. Qed.

(** C3: when [should_index] returns true it has already dumped the
    reading of the clock it took last as the new timestamp, without
    touching the index, and [update_index] opens its writer only in the
    world the gate left; when it returns false on a persisted timestamp
    the file is as it was. *)
Theorem should_index_persists_now_when_due cfg w b w' :
  should_index cfg w = Val b w' ->
  (b = true ->
     (reads w < reads w')%nat
     /\ ttl_file w' = Some (Pickled (PyDatetime (clock w (Nat.pred (reads w')))))
     /\ index_dir w' = index_dir w
     /\ forall instances,
          update_index cfg instances w = write_phase instances w')
  /\ (b = false ->
      forall t, ttl_file w = Some (Pickled (PyDatetime t)) ->
      ttl_file w' = ttl_file w).
Proof.
  intros Hgate. split.
  - intros ->.
    assert (Hup : forall instances,
      update_index cfg instances w = write_phase instances w').
    { intros instances. unfold update_index, bind at 1.
      rewrite Hgate. reflexivity. }
    revert Hgate.
    destruct (ttl_file_cases w) as [H | [[t H] | [(o & H & Hno) | (x & bs & H)]]].
    + rewrite (should_index_no_state cfg w H). unfold gate_outcome.
      destruct (_ >? _); intros [= <-]; simpl. repeat split; auto; lia.
    + rewrite (should_index_persisted cfg w t H). unfold gate_outcome.
      destruct (_ >? _); intros [= <-]; simpl. repeat split; auto; lia.
    + rewrite (should_index_other_object cfg w o H Hno). discriminate.
    + rewrite (should_index_corrupt cfg w x bs H). discriminate.
  - intros -> t H. revert Hgate.
    rewrite (should_index_persisted cfg w t H). unfold gate_outcome.
    destruct (_ >? _); intros [= <-]; simpl. congruence.
Qed.

Lemma should_index_persists_now_when_due_witness :
  let cfg := IndexConfig 300 in
  let w := world_at noon (Some (Pickled (PyDatetime (noon - Datetime.of_seconds 301)))) None in
  let w' := World (ticking noon) 2 0 (Some (Pickled (PyDatetime (noon + 1)))) None ∅
              [LogReadingTtl; LogGettingDelta; LogTtlResult true] in
  should_index cfg w = Val true w'
  /\ ttl_file w' = Some (Pickled (PyDatetime (clock w (Nat.pred (reads w'))))).
Proof.
  intros cfg w w'. split; [reflexivity |].
  apply (should_index_persists_now_when_due cfg w true w'); reflexivity.
Defined.

(** C4: while the gate reports not-due, [update_index] returns right
    after the gate: the world it leaves is the gate's own plus the one
    log line, so the index (documents and generation alike) and the heap
    are as before, and the gate was consulted exactly once. *)
Theorem update_index_not_due_is_noop cfg instances w w' :
  should_index cfg w = Val false w' ->
  update_index cfg instances w = Val tt (set_log (log w' ++ [LogStillValid]) w')
  /\ index_dir (set_log (log w' ++ [LogStillValid]) w') = index_dir w
  /\ heap (set_log (log w' ++ [LogStillValid]) w') = heap w
  /\ gate_checks (log (set_log (log w' ++ [LogStillValid]) w'))
     = S (gate_checks (log w)).
Proof.
  intros Hgate.
  destruct (should_index_frame cfg w false w' Hgate) as (_ & _ & Hix & Hheap & Hlog).
  split.
  - unfold update_index, bind. rewrite Hgate. reflexivity.
  - simpl. rewrite gate_checks_app, Hlog. cbn. repeat split; auto; lia.
Qed.

Lemma update_index_not_due_is_noop_witness :
  let cfg := IndexConfig 300 in
  let ix := IndexState 1 [Document "10.0.0.1" "web-1" "prod web" noon] in
  let w := world_at noon (Some (Pickled (PyDatetime (noon - Datetime.of_seconds 10)))) (Some ix) in
  let w' := World (ticking noon) 1 0 (Some (Pickled (PyDatetime (noon - Datetime.of_seconds 10))))
              (Some ix) ∅ [LogReadingTtl; LogGettingDelta; LogTtlResult false] in
  should_index cfg w = Val false w'
  /\ update_index cfg [MkServerInstance "web-1" "10.0.0.1" 1%positive] w
     = Val tt (set_log (log w' ++ [LogStillValid]) w').
Proof.
  intros cfg ix w w'. split; [reflexivity |].
  apply (update_index_not_due_is_noop cfg [MkServerInstance "web-1" "10.0.0.1" 1%positive] w w').
  reflexivity.
Defined.




(** ** The index store under [update_index] *)

Lemma fold_update_document docs wr :
  List.fold_left (fun wr d => update_document d wr) docs wr
  = Writer (base wr)
           (List.filter (fun o => negb (in_batch docs o)) (kept wr))
           (added wr ++ docs).
Proof.
  revert wr. induction docs as [| d docs IH]; intros [b k a]; simpl.
  - f_equal.
    + induction k as [| o k IHk]; simpl; congruence.
    + symmetry. apply List.app_nil_r.
  - rewrite IH. unfold update_document; simpl. f_equal.
    + induction k as [| o k IHk]; simpl; [reflexivity |].
      destruct (matches_unique (private_ip_address d) o); simpl; [assumption |].
      destruct (in_batch docs o); simpl; congruence.
    + rewrite <- List.app_assoc. reflexivity.
Qed.

Lemma write_batch_documents docs ix :
  documents (write_batch docs ix)
  = List.filter (fun o => negb (in_batch docs o)) (documents ix) ++ docs.
Proof.
  unfold write_batch. rewrite fold_update_document. reflexivity.
Qed.

Lemma write_batch_generation docs ix :
  generation (write_batch docs ix) = generation ix + 1.
Proof.
  unfold write_batch. rewrite fold_update_document. reflexivity.
Qed.

(** A document is hit by the batch when some address of the batch is
    one of its terms. *)
Lemma in_batch_terms docs o :
  in_batch docs o = true
  <-> exists a, In a (addresses docs) /\ In a (unique_terms o).
Proof.
  unfold in_batch, addresses, matches_unique.
  rewrite List.existsb_exists. split.
  - intros (d & Hd & Hm). apply List.existsb_exists in Hm as (x & Hx & He).
    apply String.eqb_eq in He. subst x.
    exists (private_ip_address d). split; [apply List.in_map; exact Hd | exact Hx].
  - intros (a & Ha & Ht). apply List.in_map_iff in Ha as (d & <- & Hd).
    exists d. split; [exact Hd |]. apply List.existsb_exists.
    exists (private_ip_address d). split; [exact Ht | apply String.eqb_refl].
Qed.












(** *** Running the write phase *)

(** Once the gate has answered true, [update_index] is the write phase
    run in the world the gate left behind. *)
Lemma should_index_persists_gate cfg w w' :
  should_index cfg w = Val true w' ->
  index_dir w' = index_dir w
  /\ forall instances, update_index cfg instances w = write_phase instances w'.
Proof.
  intros Hgate. split.
  - apply (should_index_frame cfg w true w' Hgate).
  - intros instances. unfold update_index, bind at 1. rewrite Hgate. reflexivity.
Qed.

Lemma index_instances_run instances : forall wr w,
  index_instances instances wr w
  = Val (List.fold_left (fun wr d => update_document d wr)
           (batch_documents (clock w) (utc_offset w) (heap w) (reads w) instances) wr)
        (World (clock w) (reads w + List.length instances) (utc_offset w)
           (ttl_file w) (index_dir w) (heap w)
           (log w ++ List.map (fun i => LogIndexing (si_ip_address i)) instances)).
Proof.
  induction instances as [| i rest IH]; intros wr [c r u f ix h l].
  - simpl. unfold ret. rewrite List.app_nil_r, Nat.add_0_r. reflexivity.
  - simpl. unfold bind, read_list, utcnow, log_info; simpl.
    rewrite IH; simpl. rewrite <- List.app_assoc, Nat.add_succ_r. reflexivity.
Qed.

Lemma write_phase_run instances w ix :
  index_dir w = Some ix ->
  write_phase instances w
  = Val tt
      (World (clock w) (reads w + List.length instances) (utc_offset w) (ttl_file w)
         (Some (write_batch
                  (batch_documents (clock w) (utc_offset w) (heap w) (reads w) instances) ix))
         (heap w)
         (log w ++ List.map (fun i => LogIndexing (si_ip_address i)) instances)).
Proof.
  intros Hix. unfold write_phase, bind, index_writer. rewrite Hix.
  rewrite index_instances_run. unfold writer_commit, write_batch. reflexivity.
Qed.

Lemma batch_documents_addresses c u h r instances :
  addresses (batch_documents c u h r instances) = List.map si_ip_address instances.
Proof.
  revert r. induction instances as [| i rest IH]; intros r; simpl; [reflexivity |].
  f_equal. apply IH.
Qed.





(** ** The query engine *)

(** *** The order on names *)

Lemma ascii_compare_lt_trans a b c :
  Ascii.compare a b = Lt -> Ascii.compare b c = Lt -> Ascii.compare a c = Lt.
Proof.
  unfold Ascii.compare. rewrite !N.compare_lt_iff. apply N.lt_trans.
Qed.

Lemma ascii_compare_refl a : Ascii.compare a a = Eq.
Proof. unfold Ascii.compare. apply N.compare_refl. Qed.

Lemma string_compare_refl s : String.compare s s = Eq.
Proof.
  induction s as [| a s IH]; simpl; [reflexivity |].
  rewrite ascii_compare_refl. assumption.
Qed.

Lemma string_compare_lt_trans s1 : forall s2 s3,
  String.compare s1 s2 = Lt -> String.compare s2 s3 = Lt -> String.compare s1 s3 = Lt.
Proof.
  induction s1 as [| a s1 IH]; intros [| b s2] [| c s3]; simpl; try congruence.
  destruct (Ascii.compare a b) eqn:Hab; try congruence;
    destruct (Ascii.compare b c) eqn:Hbc; try congruence.
  - apply Ascii.compare_eq_iff in Hab, Hbc. subst.
    rewrite ascii_compare_refl. apply IH.
  - apply Ascii.compare_eq_iff in Hab. subst. rewrite Hbc. reflexivity.
  - apply Ascii.compare_eq_iff in Hbc. subst. rewrite Hab. reflexivity.
  - rewrite (ascii_compare_lt_trans a b c Hab Hbc). reflexivity.
Qed.

Lemma string_leb_trans s1 s2 s3 :
  String.leb s1 s2 = true -> String.leb s2 s3 = true -> String.leb s1 s3 = true.
Proof.
  unfold String.leb.
  destruct (String.compare s1 s2) eqn:H12; try discriminate;
    destruct (String.compare s2 s3) eqn:H23; try discriminate; intros _ _.
  - apply String.compare_eq_iff in H12, H23. subst.
    rewrite string_compare_refl. reflexivity.
  - apply String.compare_eq_iff in H12. subst. rewrite H23. reflexivity.
  - apply String.compare_eq_iff in H23. subst. rewrite H12. reflexivity.
  - rewrite (string_compare_lt_trans s1 s2 s3 H12 H23). reflexivity.
Qed.

(** *** The ranking *)

Lemma key_leb_ranked a b : key_leb a b = true <-> ranked_before a b.
Proof.
  unfold key_leb, ranked_before, score_key, name_key.
  destruct (Qeq_bool (0 - hit_score a) (0 - hit_score b)) eqn:He.
  - apply Qeq_bool_iff in He.
    assert (hit_score a == hit_score b)%Q by lra.
    split; [tauto |]. intros [Hlt | [_ Hn]]; [lra | assumption].
  - apply Qeq_bool_neq in He. rewrite Qle_bool_iff.
    split.
    + intros Hle. left. destruct (Qlt_le_dec (hit_score b) (hit_score a)); [assumption |].
      exfalso. apply He. lra.
    + intros [Hlt | [Heq _]]; [lra |]. exfalso. apply He. lra.
Qed.

Lemma ranked_before_total a b : ranked_before a b \/ ranked_before b a.
Proof.
  unfold ranked_before.
  destruct (Qlt_le_dec (hit_score b) (hit_score a)); [tauto |].
  destruct (Qlt_le_dec (hit_score a) (hit_score b)); [tauto |].
  assert (hit_score a == hit_score b)%Q by lra.
  assert (hit_score b == hit_score a)%Q by lra.
  destruct (String.leb_total (name (hit_doc a)) (name (hit_doc b))); tauto.
Qed.

Lemma ranked_before_trans a b c :
  ranked_before a b -> ranked_before b c -> ranked_before a c.
Proof.
  unfold ranked_before.
  intros [H1 | [H1 N1]] [H2 | [H2 N2]].
  - left; lra.
  - left; lra.
  - left; lra.
  - right. split; [lra |]. eapply string_leb_trans; eassumption.
Qed.

(** *** Sorting *)

Lemma insert_hit_Permutation h l : Permutation (h :: l) (insert_hit h l).
Proof.
  induction l as [| x l IH]; simpl; [reflexivity |].
  destruct (key_leb h x); [reflexivity |].
  rewrite <- IH. apply perm_swap.
Qed.

Lemma sort_hits_Permutation l : Permutation l (sort_hits l).
Proof.
  induction l as [| h l IH]; simpl; [reflexivity |].
  rewrite <- insert_hit_Permutation. constructor. assumption.
Qed.

Lemma insert_hit_sorted h l :
  StronglySorted ranked_before l -> StronglySorted ranked_before (insert_hit h l).
Proof.
  induction l as [| x l IH]; simpl; intros Hs.
  - repeat constructor.
  - apply StronglySorted_inv in Hs as [Hs Hx].
    destruct (key_leb h x) eqn:Hk.
    + apply key_leb_ranked in Hk. constructor.
      * constructor; assumption.
      * constructor; [assumption |].
        eapply List.Forall_impl; [| exact Hx].
        intros y Hy. eapply ranked_before_trans; eassumption.
    + assert (Hxh : ranked_before x h).
      { destruct (ranked_before_total h x) as [H | H]; [| assumption].
        apply key_leb_ranked in H. congruence. }
      constructor; [auto |].
      apply (Permutation_Forall (insert_hit_Permutation h l)).
      constructor; assumption.
Qed.

Lemma sort_hits_sorted l : StronglySorted ranked_before (sort_hits l).
Proof.
  induction l as [| h l IH]; simpl; [constructor |].
  apply insert_hit_sorted. assumption.
Qed.

Lemma StronglySorted_prefix (l1 l2 : list hit) :
  StronglySorted ranked_before (l1 ++ l2) -> StronglySorted ranked_before l1.
Proof.
  induction l1 as [| x l1 IH]; simpl; intros Hs; [constructor |].
  apply StronglySorted_inv in Hs as [Hs Hx].
  constructor; [auto |].
  apply List.Forall_app in Hx. tauto.
Qed.

Lemma collect_In weighting q docs h :
  In h (collect weighting q docs) ->
  In (hit_doc h) docs /\ matcher weighting q (hit_doc h) = Some (hit_score h).
Proof.
  unfold collect. rewrite <- !list_elem_of_In, list_elem_of_omap.
  intros (d & Hd & Hm). destruct (matcher weighting q d) as [s |] eqn:Hs;
    simpl in Hm; [| discriminate].
  injection Hm as <-. simpl. auto.
Qed.

Lemma search_run qparse weighting term w q ix :
  qparse term = Some q -> index_dir w = Some ix ->
  search qparse weighting term w
  = Val (searcher_search weighting q 15 (documents ix)) w.
Proof.
  intros Hq Hix. unfold search, bind, qp_parse, index_searcher, ret.
  rewrite Hq, Hix. reflexivity.
Qed.

(** C6: on a term the parser accepts and an index that exists,
    [search] returns at most 15 hits, namely the first 15 (or all, when
    fewer match) of the matching documents put in rank order: every hit
    stands before every later hit and before every matching document
    left out, by greater score, or by equal score and a name that is not
    greater. *)
Theorem search_ranked_and_capped qparse weighting term w q ix :
  qparse term = Some q ->
  index_dir w = Some ix ->
  exists hits rest,
    search qparse weighting term w = Val hits w
    /\ (List.length hits <= 15)%nat
    /\ List.length hits
       = Nat.min 15 (List.length (collect weighting q (documents ix)))
    /\ StronglySorted ranked_before hits
    /\ StronglySorted ranked_before (hits ++ rest)
    /\ Permutation (collect weighting q (documents ix)) (hits ++ rest)
    /\ (forall h, In h hits ->
        In (hit_doc h) (documents ix)
        /\ matcher weighting q (hit_doc h) = Some (hit_score h)).
Proof.
  intros Hq Hix.
  set (all := collect weighting q (documents ix)).
  exists (firstn 15 (sort_hits all)), (skipn 15 (sort_hits all)).
  assert (Hlen : List.length (firstn 15 (sort_hits all)) = Nat.min 15 (List.length all)).
  { rewrite List.length_firstn.
    rewrite <- (Permutation_length (sort_hits_Permutation all)). reflexivity. }
  split; [apply (search_run qparse weighting term w q ix Hq Hix) |].
  split; [rewrite Hlen; apply Nat.le_min_l |].
  split; [exact Hlen |].
  split; [apply (StronglySorted_prefix _ (skipn 15 (sort_hits all)));
          rewrite List.firstn_skipn; apply sort_hits_sorted |].
  split; [rewrite List.firstn_skipn; apply sort_hits_sorted |].
  split; [rewrite List.firstn_skipn; apply sort_hits_Permutation |].
  intros h Hh. apply (collect_In weighting q (documents ix)).
  apply (Permutation_in h (Permutation_sym (sort_hits_Permutation all))).
  rewrite <- (List.firstn_skipn 15 (sort_hits all)). apply List.in_app_iff. auto.
Qed.

Example search_prod :
  search example_parser example_weighting "prod" (world_at noon None (Some example_index))
  = Val [Hit (Document "10.0.0.4" "prod" "edge" noon) 2;
         Hit (Document "10.0.0.2" "db-1" "prod" noon) 1;
         Hit (Document "10.0.0.1" "web-1" "prod" noon) 1]
        (world_at noon None (Some example_index)).
Proof. reflexivity. Qed.

Lemma search_ranked_and_capped_witness :
  let w := world_at noon None (Some example_index) in
  example_parser "prod" = Some (Term "tags" "prod")
  /\ index_dir w = Some example_index
  /\ exists hits rest,
       search example_parser example_weighting "prod" w = Val hits w
       /\ (List.length hits <= 15)%nat
       /\ StronglySorted ranked_before (hits ++ rest).
Proof.
  intros w. split; [reflexivity |]. split; [reflexivity |].
  destruct (search_ranked_and_capped example_parser example_weighting "prod" w
              (Term "tags" "prod") example_index eq_refl eq_refl)
    as (hits & rest & Hrun & Hcap & _ & _ & Hsorted & _).
  exists hits, rest. auto.
Defined.

(** C7: on a blank term, a parser that answers a blank term with
    [NullQuery] (as the whoosh parser does) makes [search] return the
    empty list without raising, the world unchanged; and for the empty
    term the script does not call [search] at all. *)
Theorem search_blank_term_is_empty qparse weighting term w ix :
  blank term = true ->
  (forall t, blank t = true -> qparse t = Some NullQuery) ->
  index_dir w = Some ix ->
  search qparse weighting term w = Val [] w
  /\ search_invocation qparse weighting "" w = Val [] w.
Proof.
  intros Hblank Hparser Hix. split; [| reflexivity].
  rewrite (search_run qparse weighting term w NullQuery ix (Hparser term Hblank) Hix).
  f_equal. unfold searcher_search, collect.
  induction (documents ix) as [| d docs IH]; [reflexivity |].
  simpl in *. assumption.
Qed.

Lemma example_parser_blank t : blank t = true -> example_parser t = Some NullQuery.
Proof. unfold example_parser. intros ->. reflexivity. Qed.

Lemma search_blank_term_is_empty_witness :
  let w := world_at noon None (Some example_index) in
  blank "   " = true
  /\ (forall t, blank t = true -> example_parser t = Some NullQuery)
  /\ index_dir w = Some example_index
  /\ search example_parser example_weighting "   " w = Val [] w.
Proof.
  intros w. split; [reflexivity |]. split; [exact example_parser_blank |].
  split; [reflexivity |].
  apply (search_blank_term_is_empty example_parser example_weighting "   " w example_index
           eq_refl example_parser_blank eq_refl).
Defined.

(** Neither [search] nor the search invocation of the script has a
    handler: were the parser to raise on a term, [search] would raise
    the same [QueryParserError] to its caller without touching the
    world, and the invocation would end with it after logging the
    term. *)
Lemma search_parse_error_propagates qparse weighting term w :
  qparse term = None ->
  search qparse weighting term w = Exc QueryParserError w
  /\ (term <> ""%string ->
      search_invocation qparse weighting term w
      = Exc QueryParserError (set_log (log w ++ [LogSearching term]) w)).
Proof.
  intros Hq.
  assert (Hs : forall w0, search qparse weighting term w0 = Exc QueryParserError w0).
  { intros w0. unfold search, bind, qp_parse. rewrite Hq. reflexivity. }
  split; [apply Hs |].
  intros Hne. unfold search_invocation.
  destruct term as [| c rest]; [congruence |]. simpl.
  unfold bind at 1. unfold log_info at 1. unfold bind at 1. rewrite Hs. reflexivity.
Qed.




(** ** The record source *)

Lemma scan_tags_run l tags : forall start w xs,
  heap w !! l = Some xs ->
  scan_tags l tags start w
  = Val (name_of_tags tags start)
        (set_heap (<[l := xs ++ List.map Value tags]> (heap w)) w).
Proof.
  induction tags as [| tag rest IH]; intros start w xs Hl; simpl.
  - unfold ret. rewrite List.app_nil_r, insert_id by assumption.
    destruct w; reflexivity.
  - unfold bind, list_append.
    rewrite (lookup_total_correct (heap w) l xs Hl).
    rewrite (IH _ _ (xs ++ [Value tag])) by (simpl; apply lookup_insert_eq).
    unfold set_heap; simpl.
    rewrite insert_insert_eq, <- List.app_assoc. reflexivity.
Qed.

Lemma scan_instances_run cfg l insts : forall acc w xs,
  heap w !! l = Some xs ->
  List.Forall (complete cfg) insts ->
  scan_instances cfg l insts acc w
  = Val (acc ++ List.map (server_of cfg l) insts)
        (set_heap (<[l := xs ++ List.concat (List.map tag_values insts)]> (heap w)) w).
Proof.
  induction insts as [| i rest IH]; intros acc w xs Hl Hall; simpl.
  - unfold ret. rewrite !List.app_nil_r, insert_id by assumption.
    destruct w; reflexivity.
  - apply List.Forall_cons_iff in Hall as [[[ts Hts] [a Ha]] Hall].
    unfold bind at 1. rewrite Hts. unfold ret at 1. unfold bind at 1.
    rewrite (scan_tags_run l ts "" w xs Hl).
    unfold bind at 1. simpl. rewrite Ha. unfold ret at 1.
    rewrite (IH _ _ (xs ++ List.map Value ts))
      by (simpl; first [apply lookup_insert_eq | assumption]).
    unfold set_heap; simpl.
    rewrite insert_insert_eq, <- !List.app_assoc.
    unfold server_of at 2, instance_name, instance_address, tag_values at 2.
    rewrite Hts, Ha. reflexivity.
Qed.

Lemma scan_reservations_run cfg l rs : forall acc w xs,
  heap w !! l = Some xs ->
  List.Forall (List.Forall (complete cfg)) rs ->
  scan_reservations cfg l rs acc w
  = Val (acc ++ List.map (server_of cfg l) (List.concat rs))
        (set_heap (<[l := xs ++ List.concat (List.map tag_values (List.concat rs))]> (heap w)) w).
Proof.
  induction rs as [| r rest IH]; intros acc w xs Hl Hall; simpl.
  - unfold ret. rewrite !List.app_nil_r, insert_id by assumption.
    destruct w; reflexivity.
  - apply List.Forall_cons_iff in Hall as [Hr Hall].
    unfold bind. rewrite (scan_instances_run cfg l r acc w xs Hl Hr).
    rewrite (IH _ _ (xs ++ List.concat (List.map tag_values r)))
      by (simpl; first [apply lookup_insert_eq | assumption]).
    unfold set_heap; simpl.
    rewrite insert_insert_eq, !List.map_app, List.concat_app, <- !List.app_assoc.
    reflexivity.
Qed.

(** [lookup] on a response all of whose instances are complete. *)
Lemma lookup_run cfg describe w :
  let response :=
    describe (List.map (fun f => Ec2Filter (filter_Name f) (filter_Values f)) (filters cfg)) in
  let l := fresh (dom (heap w)) in
  let instances := List.map (server_of cfg l) (List.concat response) in
  List.Forall (List.Forall (complete cfg)) response ->
  lookup cfg describe w
  = Val instances
        (World (clock w) (reads w) (utc_offset w) (ttl_file w) (index_dir w)
           (<[l := List.concat (List.map tag_values (List.concat response))]> (heap w))
           (log w ++ [LogReservations (List.length response);
                      LogLookupReturned (List.length instances)])).
Proof.
  intros response l instances Hall.
  unfold lookup, bind at 1, new_list. fold l. fold response.
  unfold bind at 1, log_info at 1. unfold bind at 1.
  rewrite (scan_reservations_run cfg l response [] _ [])
    by (simpl; first [apply lookup_insert_eq | assumption]).
  unfold bind, log_info, ret, set_heap, set_log; simpl.
  fold instances. rewrite insert_insert_eq, <- List.app_assoc. reflexivity.
Qed.

Lemma batch_documents_tags c u h instances : forall r d,
  In d (batch_documents c u h r instances) ->
  exists i, In i instances /\ tags d = String.concat " " (h !!! si_fields i).
Proof.
  induction instances as [| x rest IH]; intros r d; simpl; [tauto |].
  intros [<- | Hin].
  - exists x. auto.
  - destruct (IH (S r) d Hin) as (i & Hi & Ht). exists i. auto.
Qed.

(** C10: a call of [lookup] that completes creates one list object,
    hands that same object to every [ServerInstance] it returns as
    [fields], and leaves in it the tag values of all instances of the
    response, in order.  Hence when the instances are indexed, the
    [tags] of every document written is the join of the tag values of
    all of them. *)
Theorem lookup_instances_share_fields cfg describe w :
  let response :=
    describe (List.map (fun f => Ec2Filter (filter_Name f) (filter_Values f)) (filters cfg)) in
  let all_values := List.concat (List.map tag_values (List.concat response)) in
  List.Forall (List.Forall (complete cfg)) response ->
  exists l instances w',
    lookup cfg describe w = Val instances w'
    /\ heap w !! l = None
    /\ List.map si_ip_address instances
       = List.map (instance_address cfg) (List.concat response)
    /\ (forall i, In i instances -> si_fields i = l)
    /\ heap w' !! l = Some all_values
    /\ forall wr, exists wr' w'' docs,
         index_instances instances wr w' = Val wr' w''
         /\ added wr' = added wr ++ docs
         /\ addresses docs = List.map si_ip_address instances
         /\ forall d, In d docs -> tags d = String.concat " " all_values.
Proof.
  intros response all_values Hall.
  pose proof (lookup_run cfg describe w Hall) as Hrun. fold response in Hrun.
  set (l := fresh (dom (heap w))) in *.
  set (instances := List.map (server_of cfg l) (List.concat response)) in *.
  fold all_values in Hrun.
  assert (Hshare : forall i, In i instances -> si_fields i = l).
  { intros i Hi. apply List.in_map_iff in Hi as (x & <- & _). reflexivity. }
  eexists l, instances, _. split; [exact Hrun |].
  split; [apply (not_elem_of_dom (heap w)), is_fresh |].
  split; [unfold instances; rewrite List.map_map; reflexivity |].
  split; [exact Hshare |].
  split; [simpl; apply lookup_insert_eq |].
  intros wr. rewrite index_instances_run, fold_update_document; simpl.
  eexists _, _, _. split; [reflexivity |]. split; [reflexivity |].
  split; [apply batch_documents_addresses |].
  intros d Hd. apply batch_documents_tags in Hd as (i & Hi & ->).
  rewrite (Hshare i Hi), (lookup_total_correct _ l all_values); [reflexivity |].
  apply lookup_insert_eq.
Qed.

Lemma example_response_complete :
  List.Forall (List.Forall (complete example_config)) example_response.
Proof.
  repeat constructor; simpl; eexists; reflexivity.
Qed.

Lemma lookup_instances_share_fields_witness :
  let w := world_at noon None (Some (IndexState 0 [])) in
  List.Forall (List.Forall (complete example_config)) example_response
  /\ exists l instances w',
       lookup example_config example_ec2 w = Val instances w'
       /\ List.map si_ip_address instances = ["10.0.0.1"; "10.0.0.2"]
       /\ (forall i, In i instances -> si_fields i = l)
       /\ heap w' !! l = Some ["web-1"; "prod"; "db-1"; "dev"].
Proof.
  intros w. split; [exact example_response_complete |].
  destruct (lookup_instances_share_fields example_config example_ec2 w
              example_response_complete)
    as (l & instances & w' & Hrun & _ & Haddr & Hshare & Hheap & _).
  exists l, instances, w'. repeat split; assumption.
Defined.

(** The two instances above, looked up and indexed on a first run:
    both documents carry the tags of both hosts. *)
Example lookup_then_update_index :
  let w := world_at noon None (Some (IndexState 0 [])) in
  index_dir (final_world
    ((instances <- lookup example_config example_ec2 ;;
      update_index (IndexConfig 300) instances) w))
  = Some (IndexState 1
            [Document "10.0.0.1" "web-1" "web-1 prod db-1 dev" (noon + 3);
             Document "10.0.0.2" "db-1" "web-1 prod db-1 dev" (noon + 4)]).
Proof. vm_compute. reflexivity. Qed.

(** * Further properties of the gate *)

Lemma seconds_le_whole (d : Datetime.timedelta) :
  0 <= d -> Datetime.seconds d <= Datetime.whole_seconds d.
Proof.
  intros Hd. unfold Datetime.seconds, Datetime.whole_seconds,
    Datetime.seconds_per_day, Datetime.us_per_second.
  apply Z.mod_le; [apply Z.div_pos; lia | lia].
Qed.

Lemma seconds_shift_days (d k : Z) :
  Datetime.seconds (d + k * Datetime.of_seconds Datetime.seconds_per_day)
  = Datetime.seconds d.
Proof.
  unfold Datetime.seconds, Datetime.of_seconds, Datetime.seconds_per_day,
    Datetime.us_per_second.
  replace (d + k * (86400 * 1000000)) with (d + (k * 86400) * 1000000) by lia.
  rewrite Z.div_add by lia. apply Z.mod_add. lia.
Qed.

(** What the file holds once the gate has returned. *)
Lemma gate_returns_persisted cfg w b w' :
  should_index cfg w = Val b w' ->
  clock w' = clock w
  /\ exists t, ttl_file w' = Some (Pickled (PyDatetime t))
       /\ (b = true -> t = clock w (Nat.pred (reads w'))).
Proof.
  destruct (ttl_file_cases w) as [H | [[t H] | [(o & H & Hno) | (x & bs & H)]]].
  - rewrite (should_index_no_state cfg w H). unfold gate_outcome.
    destruct (_ >? _); intros [= <- <-]; simpl; eauto.
    split; [reflexivity |]. eexists; split; [reflexivity | discriminate].
  - rewrite (should_index_persisted cfg w t H). unfold gate_outcome.
    destruct (_ >? _); intros [= <- <-]; simpl; eauto.
    split; [reflexivity |]. eexists; split; [reflexivity | discriminate].
  - rewrite (should_index_other_object cfg w o H Hno). discriminate.
  - rewrite (should_index_corrupt cfg w x bs H). discriminate.
Qed.

(** X1: TTL suppression.  After a call that was due, a next call whose
    clock reading lies less than [ttl + 1] seconds after the timestamp
    just persisted is not due, and leaves the file and the index as
    they are. *)
Theorem should_index_suppressed_within_ttl cfg w w' :
  should_index cfg w = Val true w' ->
  0 <= Datetime.diff (clock w (reads w')) (clock w (Nat.pred (reads w')))
    < Datetime.of_seconds (ttl cfg + 1) ->
  exists w'',
    should_index cfg w' = Val false w''
    /\ ttl_file w'' = ttl_file w'
    /\ index_dir w'' = index_dir w.
Proof.
  intros Hgate Hnear.
  destruct (gate_returns_persisted cfg w true w' Hgate) as (Hc & t & Hfile & Ht).
  specialize (Ht eq_refl). subst t.
  destruct (should_index_frame cfg w true w' Hgate) as (_ & _ & Hix & _).
  rewrite (should_index_persisted cfg w' _ Hfile). unfold gate_outcome.
  rewrite Hc.
  set (d := Datetime.diff _ _) in *.
  assert (Hs : Datetime.seconds d <= ttl cfg).
  { pose proof (seconds_le_whole d ltac:(lia)) as Hle.
    assert (Datetime.whole_seconds d < ttl cfg + 1).
    { unfold Datetime.whole_seconds, Datetime.of_seconds, Datetime.us_per_second in *.
      apply Z.div_lt_upper_bound; lia. }
    lia. }
  destruct (Z.gtb_spec (Datetime.seconds d) (ttl cfg)); [lia |].
  eexists. split; [reflexivity |]. simpl. auto.
Qed.

Lemma should_index_suppressed_within_ttl_witness :
  let cfg := IndexConfig 300 in
  let w := world_at noon None (Some (IndexState 0 [])) in
  let w' := World (ticking noon) 3 0 (Some (Pickled (PyDatetime (noon + 2))))
              (Some (IndexState 0 [])) ∅
              [LogReadingTtl; LogTtlMissing; LogGettingDelta; LogTtlResult true] in
  should_index cfg w = Val true w'
  /\ 0 <= Datetime.diff (clock w (reads w')) (clock w (Nat.pred (reads w')))
       < Datetime.of_seconds (ttl cfg + 1)
  /\ exists w'', should_index cfg w' = Val false w'' /\ ttl_file w'' = ttl_file w'.
Proof.
  intros cfg w w'.
  assert (H1 : should_index cfg w = Val true w') by reflexivity.
  assert (H2 : 0 <= Datetime.diff (clock w (reads w')) (clock w (Nat.pred (reads w')))
               < Datetime.of_seconds (ttl cfg + 1)) by (vm_compute; split; congruence).
  split; [exact H1 |]. split; [exact H2 |].
  destruct (should_index_suppressed_within_ttl cfg w w' H1 H2) as (w'' & Hr & Hf & _).
  exists w''. auto.
Defined.

(** X2: whole days do not count.  Moving the persisted timestamp back
    (or forth) by any number of whole days does not change the answer
    of the gate. *)
Theorem should_index_ignores_whole_days cfg w t k :
  ttl_file w = Some (Pickled (PyDatetime t)) ->
  exists b w1 w2,
    should_index cfg w = Val b w1
    /\ should_index cfg
         (set_ttl_file
            (Some (Pickled (PyDatetime
                     (Datetime.minus t (k * Datetime.of_seconds Datetime.seconds_per_day))))) w)
       = Val b w2.
Proof.
  intros Hfile.
  rewrite (should_index_persisted cfg w t Hfile).
  rewrite (should_index_persisted cfg (set_ttl_file _ w) _ eq_refl).
  unfold gate_outcome. simpl.
  replace (Datetime.diff (clock w (reads w))
             (Datetime.minus t (k * Datetime.of_seconds Datetime.seconds_per_day)))
    with (Datetime.diff (clock w (reads w)) t
          + k * Datetime.of_seconds Datetime.seconds_per_day)
    by (unfold Datetime.diff, Datetime.minus; lia).
  rewrite seconds_shift_days. eexists _, _, _. split; reflexivity.
Qed.

Lemma should_index_ignores_whole_days_witness :
  let cfg := IndexConfig 300 in
  let t := noon - Datetime.of_seconds 10 in
  let w := world_at noon (Some (Pickled (PyDatetime t))) None in
  ttl_file w = Some (Pickled (PyDatetime t))
  /\ exists b w1 w2,
       should_index cfg w = Val b w1
       /\ should_index cfg
            (set_ttl_file
               (Some (Pickled (PyDatetime
                        (Datetime.minus t (7 * Datetime.of_seconds Datetime.seconds_per_day))))) w)
          = Val b w2.
Proof.
  intros cfg t w. split; [reflexivity |].
  apply (should_index_ignores_whole_days cfg w t 7). reflexivity.
Defined.

(** X3: a timestamp from the future.  When the clock reads earlier than
    the persisted timestamp, by up to a day less [ttl + 1] seconds, the
    [seconds] component of the negative difference is [86400] minus the
    seconds of the lead (rounded up), which exceeds [ttl]: the gate is
    due. *)
Theorem should_index_due_after_clock_step_back cfg w t :
  ttl_file w = Some (Pickled (PyDatetime t)) ->
  0 <= ttl cfg ->
  Datetime.of_seconds (ttl cfg + 1) - Datetime.of_seconds Datetime.seconds_per_day
    <= Datetime.diff (clock w (reads w)) t < 0 ->
  exists w', should_index cfg w = Val true w'.
Proof.
  intros Hfile Httl Hd.
  rewrite (should_index_persisted cfg w t Hfile). unfold gate_outcome.
  set (d := Datetime.diff _ _) in *.
  assert (Hs : Datetime.seconds d > ttl cfg).
  { unfold Datetime.seconds, Datetime.of_seconds, Datetime.seconds_per_day,
      Datetime.us_per_second in *.
    assert (Hq1 : ttl cfg + 1 - 86400 <= d / 1000000)
      by (apply Z.div_le_lower_bound; lia).
    assert (Hq2 : d / 1000000 < 0) by (apply Z.div_lt_upper_bound; lia).
    rewrite <- (Z.mod_add (d / 1000000) 1 86400) by lia.
    rewrite Z.mod_small by lia. lia. }
  destruct (Z.gtb_spec (Datetime.seconds d) (ttl cfg)); [| lia].
  eexists; reflexivity.
Qed.

Lemma should_index_due_after_clock_step_back_witness :
  let cfg := IndexConfig 300 in
  let t := noon + Datetime.of_seconds 10 in
  let w := world_at noon (Some (Pickled (PyDatetime t))) None in
  ttl_file w = Some (Pickled (PyDatetime t))
  /\ 0 <= ttl cfg
  /\ Datetime.of_seconds (ttl cfg + 1) - Datetime.of_seconds Datetime.seconds_per_day
       <= Datetime.diff (clock w (reads w)) t < 0
  /\ exists w', should_index cfg w = Val true w'.
Proof.
  intros cfg t w.
  assert (H3 : Datetime.of_seconds (ttl cfg + 1) - Datetime.of_seconds Datetime.seconds_per_day
               <= Datetime.diff (clock w (reads w)) t < 0) by (vm_compute; split; congruence).
  split; [reflexivity |]. split; [simpl; lia |]. split; [exact H3 |].
  apply (should_index_due_after_clock_step_back cfg w t eq_refl); [simpl; lia | exact H3].
Defined.

(** What a raising call of the gate leaves behind. *)
Lemma gate_raises_frame cfg w e w' :
  should_index cfg w = Exc e w' ->
  ttl_file w' = ttl_file w /\ index_dir w' = index_dir w /\ heap w' = heap w
  /\ ((exists x bs, ttl_file w = Some (Raw (x :: bs)) /\ e = LoadError (x :: bs))
      \/ (exists o, ttl_file w = Some (Pickled o) /\ (forall t, o <> PyDatetime t)
                    /\ e = object_error o)).
Proof.
  destruct (ttl_file_cases w) as [H | [[t H] | [(o & H & Hno) | (x & bs & H)]]].
  - rewrite (should_index_no_state cfg w H). discriminate.
  - rewrite (should_index_persisted cfg w t H). discriminate.
  - rewrite (should_index_other_object cfg w o H Hno). intros [= <- <-]. simpl.
    repeat split. right. eauto.
  - rewrite (should_index_corrupt cfg w x bs H). intros [= <- <-]. simpl.
    repeat split. left. eauto.
Qed.

(** X4: with a TTL of 86399 seconds or more [update_index] never
    changes the index, whatever the instances, the clock and the state
    file: the gate cannot answer true, so no writer is ever opened. *)
Theorem update_index_never_writes_from_day_ttl cfg instances w :
  86399 <= ttl cfg ->
  index_dir (final_world (update_index cfg instances w)) = index_dir w.
Proof.
  intros Httl. unfold update_index, bind at 1.
  destruct (should_index cfg w) as [b w' | e w'] eqn:Hgate.
  - rewrite (gate_never_due_from_day_ttl cfg w b w' Httl Hgate). simpl.
    apply (should_index_frame cfg w b w' Hgate).
  - simpl. apply (gate_raises_frame cfg w e w' Hgate).
Qed.

Lemma update_index_never_writes_from_day_ttl_witness :
  let cfg := IndexConfig 86400 in
  let w := world_at noon None (Some (IndexState 0 [])) in
  86399 <= ttl cfg
  /\ index_dir (final_world
       (update_index cfg [MkServerInstance "web-1" "10.0.0.1" 1%positive] w))
     = Some (IndexState 0 []).
Proof.
  intros cfg w. split; [simpl; lia |].
  apply (update_index_never_writes_from_day_ttl cfg
           [MkServerInstance "web-1" "10.0.0.1" 1%positive] w).
  simpl; lia.
Defined.

(** X5: first-run bootstrap.  Without a state file (or with one of
    length zero), if [ttl + 1] seconds plus the time between the first
    two clock readings stay below one day, the call is due; it reads the
    clock three times and leaves the third reading, not the sentinel, in
    the file. *)
Theorem should_index_first_run cfg w :
  no_state w ->
  0 <= ttl cfg ->
  0 <= Datetime.diff (clock w (S (reads w))) (clock w (reads w)) ->
  Datetime.of_seconds (ttl cfg + 1)
    + Datetime.diff (clock w (S (reads w))) (clock w (reads w))
    < Datetime.of_seconds Datetime.seconds_per_day ->
  exists w',
    should_index cfg w = Val true w'
    /\ ttl_file w' = Some (Pickled (PyDatetime (clock w (S (S (reads w))))))
    /\ reads w' = S (S (S (reads w)))
    /\ index_dir w' = index_dir w.
Proof.
  intros Hno Httl Hdrift Hday.
  destruct (first_run_due cfg w Hno Httl Hdrift Hday) as [w' Hgate].
  exists w'. split; [exact Hgate |].
  revert Hgate. rewrite (should_index_no_state cfg w Hno). unfold gate_outcome.
  destruct (_ >? _); intros [= <-]; simpl. auto.
Qed.

Lemma should_index_first_run_witness :
  let cfg := IndexConfig 300 in
  let w := world_at noon None None in
  no_state w
  /\ 0 <= ttl cfg
  /\ exists w',
       should_index cfg w = Val true w'
       /\ ttl_file w' = Some (Pickled (PyDatetime (noon + 2))).
Proof.
  intros cfg w.
  assert (Hno : no_state w) by (left; reflexivity).
  split; [exact Hno |]. split; [simpl; lia |].
  assert (Httl : 0 <= ttl cfg) by (simpl; lia).
  assert (Hdrift : 0 <= Datetime.diff (clock w (S (reads w))) (clock w (reads w)))
    by (vm_compute; congruence).
  assert (Hday : Datetime.of_seconds (ttl cfg + 1)
                 + Datetime.diff (clock w (S (reads w))) (clock w (reads w))
                 < Datetime.of_seconds Datetime.seconds_per_day)
    by (vm_compute; congruence).
  destruct (should_index_first_run cfg w Hno Httl Hdrift Hday) as (w' & Hr & Hf & _).
  exists w'. split; [exact Hr | exact Hf].
Defined.

(** X6: once [should_index] has returned, the file holds a pickled
    datetime, and every later call, under any configuration, returns as
    well: the gate raises only on a state file it did not write. *)
Theorem should_index_returns_again cfg w b w' cfg' :
  should_index cfg w = Val b w' ->
  (exists t, ttl_file w' = Some (Pickled (PyDatetime t)))
  /\ exists b' w'', should_index cfg' w' = Val b' w''.
Proof.
  intros Hgate.
  destruct (gate_returns_persisted cfg w b w' Hgate) as (_ & t & Hfile & _).
  split; [eauto |].
  rewrite (should_index_persisted cfg' w' t Hfile). unfold gate_outcome. eauto.
Qed.

Lemma should_index_returns_again_witness :
  let cfg := IndexConfig 300 in
  let w := world_at noon (Some (Raw [])) None in
  let w' := World (ticking noon) 3 0 (Some (Pickled (PyDatetime (noon + 2)))) None ∅
              [LogReadingTtl; LogTtlMissing; LogGettingDelta; LogTtlResult true] in
  should_index cfg w = Val true w'
  /\ exists b' w'', should_index (IndexConfig 5) w' = Val b' w''.
Proof.
  intros cfg w w'. split; [reflexivity |].
  apply (should_index_returns_again cfg w true w' (IndexConfig 5)). reflexivity.
Defined.



(** * Further properties of the index store *)

Lemma update_index_due_run cfg instances w w' ix :
  should_index cfg w = Val true w' ->
  index_dir w = Some ix ->
  update_index cfg instances w
  = Val tt
      (World (clock w') (reads w' + List.length instances) (utc_offset w') (ttl_file w')
         (Some (write_batch
                  (batch_documents (clock w') (utc_offset w') (heap w') (reads w') instances)
                  ix))
         (heap w')
         (log w' ++ List.map (fun i => LogIndexing (si_ip_address i)) instances)).
Proof.
  intros Hgate Hix.
  destruct (should_index_persists_gate cfg w w' Hgate) as [Hix' Hup].
  rewrite Hup. apply write_phase_run. congruence.
Qed.

Lemma batch_documents_names c u h instances : forall r,
  List.map name (batch_documents c u h r instances) = List.map si_name instances.
Proof.
  induction instances as [| i rest IH]; intros r; simpl; [reflexivity |].
  f_equal. apply IH.
Qed.




(** X9: the empty batch.  A due [update_index] on no instances still
    opens a writer and commits: the generation advances by one, the
    documents are the same, and the TTL window is consumed all the
    same. *)
Theorem update_index_empty_batch_commits cfg w w' ix :
  should_index cfg w = Val true w' ->
  index_dir w = Some ix ->
  exists w'',
    update_index cfg [] w = Val tt w''
    /\ index_dir w'' = Some (IndexState (generation ix + 1) (documents ix))
    /\ ttl_file w'' = Some (Pickled (PyDatetime (clock w (Nat.pred (reads w')))))
    /\ reads w'' = reads w'.
Proof.
  intros Hgate Hix.
  destruct (gate_returns_persisted cfg w true w' Hgate) as (_ & t & Hfile & Ht).
  rewrite (Ht eq_refl) in Hfile.
  eexists. split; [apply (update_index_due_run cfg [] w w' ix Hgate Hix) |].
  simpl. unfold write_batch, commit, open_writer; simpl.
  rewrite List.app_nil_r, Nat.add_0_r. auto.
Qed.

Lemma update_index_empty_batch_commits_witness :
  let cfg := IndexConfig 300 in
  let ix := IndexState 4 [Document "10.0.0.1" "web-1" "prod web" noon] in
  let w := world_at noon None (Some ix) in
  let w' := World (ticking noon) 3 0 (Some (Pickled (PyDatetime (noon + 2)))) (Some ix) ∅
              [LogReadingTtl; LogTtlMissing; LogGettingDelta; LogTtlResult true] in
  should_index cfg w = Val true w'
  /\ index_dir w = Some ix
  /\ exists w'',
       update_index cfg [] w = Val tt w''
       /\ index_dir w'' = Some (IndexState 5 [Document "10.0.0.1" "web-1" "prod web" noon]).
Proof.
  intros cfg ix w w'.
  assert (H1 : should_index cfg w = Val true w') by reflexivity.
  split; [exact H1 |]. split; [reflexivity |].
  destruct (update_index_empty_batch_commits cfg w w' ix H1 eq_refl) as (w'' & Hrun & Hdir & _).
  exists w''. auto.
Defined.

Lemma only_term_chars_app (s : string) c :
  only_term_chars (s ++ String c "") = only_term_chars s && is_term_char c.
Proof.
  induction s as [| x s IH].
  - simpl. rewrite andb_true_r. reflexivity.
  - change (only_term_chars (String x (s ++ String c ""))
            = only_term_chars (String x s) && is_term_char c).
    simpl. rewrite IH. apply andb_assoc.
Qed.

Lemma lower_char_is_term_char c :
  is_word_char c = true -> is_term_char (lower_char c) = true.
Proof.
  destruct c as [[] [] [] [] [] [] [] []]; vm_compute; congruence.
Qed.

(** Every token of the analyzer is made of term characters. *)
Lemma scan_tokens_term_chars text : forall token t,
  only_term_chars token = true ->
  In t (scan_tokens text token) -> only_term_chars t = true.
Proof.
  induction text as [| c rest IH]; intros token t Htoken; simpl.
  - destruct token; simpl; [tauto |]. intros [<- | []]. exact Htoken.
  - destruct (is_word_char c) eqn:Hc.
    + apply IH. rewrite only_term_chars_app, Htoken. simpl.
      apply lower_char_is_term_char. exact Hc.
    + simpl. match goal with |- context [if ?b then _ else _] => destruct b end.
      * apply IH. rewrite only_term_chars_app, Htoken. reflexivity.
      * intros Hin. apply List.in_app_iff in Hin as [Hin | Hin].
        -- destruct token; simpl in Hin; [tauto |]. destruct Hin as [<- | []].
           exact Htoken.
        -- apply (IH EmptyString t eq_refl Hin).
Qed.

Lemma filter_all {A} (f : A -> bool) (l : list A) :
  (forall x, In x l -> f x = true) -> List.filter f l = l.
Proof.
  induction l as [| x l IH]; simpl; intros H; [reflexivity |].
  rewrite (H x (or_introl eq_refl)). f_equal. apply IH. auto.
Qed.

(** X10: an address the index cannot hold as a term is never replaced.
    When every address of the batch has a character that no term has (an
    upper-case letter, a hyphen, a space: anything but a dot and the
    lower-case word characters), the look-up of [update_document] finds
    nothing: a due [update_index] keeps every old document and appends
    one document per instance, so that the same hosts pile up with every
    rebuild. *)
Theorem update_index_appends_unanalysable_addresses cfg instances w w' ix :
  should_index cfg w = Val true w' ->
  index_dir w = Some ix ->
  List.Forall (fun i => only_term_chars (si_ip_address i) = false) instances ->
  exists w'' new,
    update_index cfg instances w = Val tt w''
    /\ index_dir w'' = Some (IndexState (generation ix + 1) (documents ix ++ new))
    /\ addresses new = List.map si_ip_address instances
    /\ List.map name new = List.map si_name instances.
Proof.
  intros Hgate Hix Hbad.
  set (docs := batch_documents (clock w') (utc_offset w') (heap w') (reads w') instances).
  assert (Haddr : addresses docs = List.map si_ip_address instances)
    by apply batch_documents_addresses.
  assert (Hkeep : List.filter (fun o => negb (in_batch docs o)) (documents ix)
                  = documents ix).
  { apply filter_all. intros o _. apply negb_true_iff.
    destruct (in_batch docs o) eqn:Hb; [| reflexivity].
    apply in_batch_terms in Hb as (a & Ha & Ht). rewrite Haddr in Ha.
    apply List.in_map_iff in Ha as (i & <- & Hi).
    rewrite List.Forall_forall in Hbad. specialize (Hbad i Hi).
    rewrite (scan_tokens_term_chars _ EmptyString _ eq_refl Ht) in Hbad.
    discriminate. }
  eexists _, docs.
  split; [apply (update_index_due_run cfg instances w w' ix Hgate Hix) |].
  split; [| split; [exact Haddr | apply batch_documents_names]].
  cbn [index_dir]. fold docs. f_equal. rewrite <- Hkeep.
  rewrite <- (write_batch_generation docs ix), <- (write_batch_documents docs ix).
  destruct (write_batch docs ix); reflexivity.
Qed.

Lemma update_index_appends_unanalysable_addresses_witness :
  let cfg := IndexConfig 300 in
  let address := "ip-10-0-0-1.ec2.internal"%string in
  let ix := IndexState 1 [Document address "web-1" "prod web" noon] in
  let start := noon + Datetime.of_seconds 400 in
  let h : gmap loc (list string) := {[1%positive := ["prod"; "web"]]} in
  let w := World (ticking start) 0 0 (Some (Pickled (PyDatetime noon))) (Some ix) h [] in
  let w' := World (ticking start) 2 0 (Some (Pickled (PyDatetime (start + 1)))) (Some ix) h
              [LogReadingTtl; LogGettingDelta; LogTtlResult true] in
  let instances := [MkServerInstance "web-1" address 1%positive] in
  should_index cfg w = Val true w'
  /\ index_dir w = Some ix
  /\ List.Forall (fun i => only_term_chars (si_ip_address i) = false) instances
  /\ exists w'' new,
       update_index cfg instances w = Val tt w''
       /\ index_dir w'' = Some (IndexState 2 (documents ix ++ new))
       /\ addresses new = [address].
Proof.
  intros cfg address ix start h w w' instances.
  assert (H1 : should_index cfg w = Val true w') by reflexivity.
  assert (H3 : List.Forall (fun i => only_term_chars (si_ip_address i) = false) instances)
    by (repeat constructor).
  split; [exact H1 |]. split; [reflexivity |]. split; [exact H3 |].
  destruct (update_index_appends_unanalysable_addresses cfg instances w w' ix H1 eq_refl H3)
    as (w'' & new & Hrun & Hdir & Haddr & _).
  exists w'', new. auto.
Defined.

(** * Further properties of the record source *)

Lemma complete_dec cfg i : {complete cfg i} + {~ complete cfg i}.
Proof.
  unfold complete.
  destruct (Tags i) as [ts |]; [| right; intros [[x Hx] _]; discriminate].
  destruct (attributes i !! address_field cfg) as [a |];
    [left; split; eexists; reflexivity | right; intros [_ [x Hx]]; discriminate].
Qed.

Lemma scan_instances_incomplete cfg l insts : forall acc w xs,
  heap w !! l = Some xs ->
  ~ List.Forall (complete cfg) insts ->
  exists k h,
    scan_instances cfg l insts acc w = Exc (KeyError k) (set_heap h w)
    /\ (k = "Tags"%string \/ k = address_field cfg).
Proof.
  induction insts as [| i rest IH]; intros acc w xs Hl Hnot; simpl.
  - exfalso. apply Hnot. constructor.
  - unfold bind at 1. destruct (Tags i) as [ts |] eqn:Hts.
    + unfold ret at 1. unfold bind at 1. rewrite (scan_tags_run l ts "" w xs Hl).
      unfold bind at 1. simpl.
      destruct (attributes i !! address_field cfg) as [a |] eqn:Ha.
      * unfold ret at 1.
        assert (Hrest : ~ List.Forall (complete cfg) rest).
        { intros Hrest. apply Hnot. constructor; [| exact Hrest].
          split; eexists; eassumption. }
        destruct (IH (acc ++ [MkServerInstance (name_of_tags ts "") a l])
                    (set_heap (<[l:=xs ++ List.map Value ts]> (heap w)) w)
                    (xs ++ List.map Value ts)
                    ltac:(simpl; apply lookup_insert_eq) Hrest)
          as (k & h & Hrun & Hk).
        exists k, h. split; [| exact Hk]. rewrite Hrun. destruct w; reflexivity.
      * eexists _, _. split; [reflexivity | right; reflexivity].
    + exists "Tags"%string, (heap w). split; [| left; reflexivity].
      unfold raise. destruct w; reflexivity.
Qed.

Lemma scan_reservations_incomplete cfg l rs : forall acc w xs,
  heap w !! l = Some xs ->
  ~ List.Forall (List.Forall (complete cfg)) rs ->
  exists k h,
    scan_reservations cfg l rs acc w = Exc (KeyError k) (set_heap h w)
    /\ (k = "Tags"%string \/ k = address_field cfg).
Proof.
  induction rs as [| r rest IH]; intros acc w xs Hl Hnot; simpl.
  - exfalso. apply Hnot. constructor.
  - unfold bind.
    destruct (List.Forall_dec (complete cfg) (complete_dec cfg) r) as [Hr | Hr].
    + rewrite (scan_instances_run cfg l r acc w xs Hl Hr).
      assert (Hrest : ~ List.Forall (List.Forall (complete cfg)) rest).
      { intros Hrest. apply Hnot. constructor; assumption. }
      destruct (IH (acc ++ List.map (server_of cfg l) r)
                  (set_heap (<[l:=xs ++ List.concat (List.map tag_values r)]> (heap w)) w)
                  (xs ++ List.concat (List.map tag_values r))
                  ltac:(simpl; apply lookup_insert_eq) Hrest)
        as (k & h & Hrun & Hk).
      exists k, h. split; [| exact Hk]. rewrite Hrun. destruct w; reflexivity.
    + destruct (scan_instances_incomplete cfg l r acc w xs Hl Hr) as (k & h & Hrun & Hk).
      exists k, h. rewrite Hrun. auto.
Qed.

(** X11: [lookup] is all or nothing.  It returns, with one record per
    instance of the response, exactly when every instance has a
    ['Tags'] entry and the configured address attribute; otherwise it
    raises [KeyError] for ['Tags'] or for the address attribute and
    returns no record at all, the state file and the index untouched. *)
Theorem lookup_all_or_nothing cfg describe w :
  let response :=
    describe (List.map (fun f => Ec2Filter (filter_Name f) (filter_Values f)) (filters cfg)) in
  (List.Forall (List.Forall (complete cfg)) response ->
   exists instances w',
     lookup cfg describe w = Val instances w'
     /\ List.length instances = List.length (List.concat response))
  /\ (~ List.Forall (List.Forall (complete cfg)) response ->
      exists k w',
        lookup cfg describe w = Exc (KeyError k) w'
        /\ (k = "Tags"%string \/ k = address_field cfg)
        /\ ttl_file w' = ttl_file w /\ index_dir w' = index_dir w).
Proof.
  intros response. split.
  - intros Hall. rewrite (lookup_run cfg describe w Hall). fold response.
    eexists _, _. split; [reflexivity |]. apply List.length_map.
  - intros Hnot. unfold lookup, bind at 1, new_list. fold response.
    unfold bind at 1, log_info at 1. unfold bind at 1.
    match goal with
    | |- context [scan_reservations cfg ?l response [] ?w0] =>
        destruct (scan_reservations_incomplete cfg l response [] w0 [])
          as (k & h & Hrun & Hk);
        [simpl; apply lookup_insert_eq | exact Hnot |]; rewrite Hrun
    end.
    eexists k, _. split; [reflexivity |]. split; [exact Hk |]. split; reflexivity.
Qed.

Lemma lookup_all_or_nothing_witness :
  let w := world_at noon None None in
  ~ List.Forall (List.Forall (complete example_config)) untagged_response
  /\ exists k w',
       lookup example_config (fun _ => untagged_response) w = Exc (KeyError k) w'
       /\ (k = "Tags"%string \/ k = address_field example_config).
Proof.
  intros w.
  assert (Hnot : ~ List.Forall (List.Forall (complete example_config)) untagged_response).
  { intros H. apply List.Forall_inv in H. apply List.Forall_inv_tail in H.
    apply List.Forall_inv in H. destruct H as [[ts Hts] _]. discriminate. }
  split; [exact Hnot |].
  destruct (proj2 (lookup_all_or_nothing example_config (fun _ => untagged_response) w) Hnot)
    as (k & w' & Hrun & Hk & _).
  exists k, w'. auto.
Defined.

Lemma name_of_tags_none tags : forall start,
  List.forallb (fun tag => negb (is_name_tag tag)) tags = true ->
  name_of_tags tags start = start.
Proof.
  unfold name_of_tags, is_name_tag.
  induction tags as [| tag rest IH]; intros start; simpl; [reflexivity |].
  intros H. apply andb_true_iff in H as [Htag Hrest].
  apply negb_true_iff in Htag. rewrite Htag. apply IH. exact Hrest.
Qed.

Lemma name_of_tags_last pre tag post start :
  is_name_tag tag = true ->
  List.forallb (fun tag => negb (is_name_tag tag)) post = true ->
  name_of_tags (pre ++ tag :: post) start = Value tag.
Proof.
  intros Htag Hpost. unfold name_of_tags. rewrite List.fold_left_app. simpl.
  unfold is_name_tag in Htag. rewrite Htag.
  apply (name_of_tags_none post (Value tag) Hpost).
Qed.

(** X12: the name of a record.  With a complete response, the record
    [lookup] returns for an instance is named by the value of the last
    of its tags whose key is exactly [Name], and has the empty name
    when no tag has that key. *)
Theorem lookup_names_by_last_name_tag cfg describe w :
  let response :=
    describe (List.map (fun f => Ec2Filter (filter_Name f) (filter_Values f)) (filters cfg)) in
  List.Forall (List.Forall (complete cfg)) response ->
  exists instances w',
    lookup cfg describe w = Val instances w'
    /\ List.Forall2
         (fun (i : ec2_instance) (record : ServerInstance) =>
            forall ts, Tags i = Some ts ->
              (List.forallb (fun tag => negb (is_name_tag tag)) ts = true ->
               si_name record = ""%string)
              /\ (forall pre tag post,
                  ts = pre ++ tag :: post ->
                  is_name_tag tag = true ->
                  List.forallb (fun tag => negb (is_name_tag tag)) post = true ->
                  si_name record = Value tag))
         (List.concat response) instances.
Proof.
  intros response Hall. rewrite (lookup_run cfg describe w Hall). fold response.
  eexists _, _. split; [reflexivity |].
  induction (List.concat response) as [| i rest IH]; simpl; constructor; [| exact IH].
  intros ts Hts. unfold server_of; cbn [si_name]. unfold instance_name. rewrite Hts. split.
  - apply name_of_tags_none.
  - intros pre tag post -> Htag Hpost. apply name_of_tags_last; assumption.
Qed.

Lemma renamed_response_complete :
  List.Forall (List.Forall (complete example_config)) renamed_response.
Proof. repeat constructor; simpl; eexists; reflexivity. Qed.

Lemma lookup_names_by_last_name_tag_witness :
  let w := world_at noon None None in
  List.Forall (List.Forall (complete example_config)) renamed_response
  /\ exists instances w',
       lookup example_config (fun _ => renamed_response) w = Val instances w'
       /\ List.map si_name instances = ["new"; ""]%string.
Proof.
  intros w. split; [exact renamed_response_complete |].
  destruct (lookup_names_by_last_name_tag example_config (fun _ => renamed_response) w
              renamed_response_complete)
    as (instances & w' & Hrun & Hnames).
  exists instances, w'. split; [exact Hrun |].
  simpl in Hnames.
  inversion Hnames as [| i1 r1 l1 l1' H1 Hrest]; subst.
  inversion Hrest as [| i2 r2 l2 l2' H2 Hnil]; subst.
  inversion Hnil; subst. simpl.
  rewrite (proj2 (H1 _ eq_refl) [Ec2Tag "Name" "old"; Ec2Tag "env" "prod"]
             (Ec2Tag "Name" "new") [] eq_refl eq_refl eq_refl).
  rewrite (proj1 (H2 _ eq_refl) eq_refl). reflexivity.
Defined.

Lemma lookup_returns_complete cfg describe w instances w' :
  lookup cfg describe w = Val instances w' ->
  List.Forall (List.Forall (complete cfg))
    (describe (List.map (fun f => Ec2Filter (filter_Name f) (filter_Values f)) (filters cfg))).
Proof.
  intros Hrun.
  match goal with
  | |- List.Forall ?P ?l =>
      destruct (List.Forall_dec P
                  (fun r => List.Forall_dec (complete cfg) (complete_dec cfg) r) l)
        as [Hall | Hnot]; [exact Hall |]
  end.
  exfalso. unfold lookup, bind at 1, new_list in Hrun.
  unfold bind at 1, log_info at 1 in Hrun. unfold bind at 1 in Hrun.
  match type of Hrun with
  | context [scan_reservations cfg ?l ?rs [] ?w0] =>
      destruct (scan_reservations_incomplete cfg l rs [] w0 [])
        as (k & h & Hexc & _);
      [simpl; apply lookup_insert_eq | exact Hnot |]; rewrite Hexc in Hrun
  end.
  discriminate.
Qed.

(** X13: the shared list is per call.  A returning call of [lookup]
    puts its one list at a location that was not in use, so no list
    object that existed before is changed; and the records of a later
    call share a different list, so that records of two calls never see
    each other's tags. *)
Theorem lookup_list_is_fresh cfg1 cfg2 describe1 describe2 w instances1 w1 instances2 w2 :
  lookup cfg1 describe1 w = Val instances1 w1 ->
  lookup cfg2 describe2 w1 = Val instances2 w2 ->
  (forall l, is_Some (heap w !! l) -> heap w1 !! l = heap w !! l)
  /\ forall a b, In a instances1 -> In b instances2 ->
       si_fields a <> si_fields b
       /\ heap w2 !! si_fields a = heap w1 !! si_fields a.
Proof.
  intros Hrun1 Hrun2.
  pose proof (lookup_returns_complete _ _ _ _ _ Hrun1) as Hc1.
  pose proof (lookup_returns_complete _ _ _ _ _ Hrun2) as Hc2.
  rewrite (lookup_run cfg1 describe1 w Hc1) in Hrun1.
  rewrite (lookup_run cfg2 describe2 w1 Hc2) in Hrun2.
  injection Hrun1 as Hi1 Hw1. injection Hrun2 as Hi2 Hw2.
  assert (Hfresh1 : heap w !! fresh (dom (heap w)) = None)
    by (apply (not_elem_of_dom (heap w)), is_fresh).
  assert (Hfresh2 : heap w1 !! fresh (dom (heap w1)) = None)
    by (apply (not_elem_of_dom (heap w1)), is_fresh).
  assert (Hl1 : is_Some (heap w1 !! fresh (dom (heap w)))).
  { rewrite <- Hw1. simpl. rewrite lookup_insert_eq. eauto. }
  split.
  - intros l [xs Hl]. rewrite <- Hw1. simpl. apply lookup_insert_ne. congruence.
  - intros a b Ha Hb. rewrite <- Hi1 in Ha. rewrite <- Hi2 in Hb.
    apply List.in_map_iff in Ha as (x & <- & _).
    apply List.in_map_iff in Hb as (y & <- & _). simpl.
    assert (Hne : fresh (dom (heap w1)) <> fresh (dom (heap w))).
    { intros Heq. rewrite Heq in Hfresh2. rewrite Hfresh2 in Hl1.
      destruct Hl1; discriminate. }
    split; [congruence |].
    rewrite <- Hw2. simpl. apply lookup_insert_ne. exact Hne.
Qed.

(** A complete response makes [lookup] return. *)
Lemma lookup_complete_returns cfg describe w :
  List.Forall (List.Forall (complete cfg))
    (describe (List.map (fun f => Ec2Filter (filter_Name f) (filter_Values f)) (filters cfg))) ->
  exists instances w', lookup cfg describe w = Val instances w'.
Proof.
  intros Hall. rewrite (lookup_run cfg describe w Hall). eauto.
Qed.

Lemma lookup_list_is_fresh_witness :
  let w := world_at noon None None in
  exists instances1 w1 instances2 w2,
    lookup example_config example_ec2 w = Val instances1 w1
    /\ lookup example_config (fun _ => renamed_response) w1 = Val instances2 w2
    /\ forall a b, In a instances1 -> In b instances2 -> si_fields a <> si_fields b.
Proof.
  intros w.
  destruct (lookup_complete_returns example_config example_ec2 w
              example_response_complete) as (i1 & w1 & H1).
  destruct (lookup_complete_returns example_config (fun _ => renamed_response) w1
              renamed_response_complete) as (i2 & w2 & H2).
  exists i1, w1, i2, w2. split; [exact H1 |]. split; [exact H2 |].
  intros a b Ha Hb.
  apply (lookup_list_is_fresh example_config example_config example_ec2
           (fun _ => renamed_response) w i1 w1 i2 w2 H1 H2); assumption.
Defined.

(** * The selection prompt *)

Lemma string_app_assoc (a b c : string) : ((a ++ b) ++ c = a ++ (b ++ c))%string.
Proof.
  induction a as [| x a IH]; [reflexivity |].
  change (String x ((a ++ b) ++ c) = String x (a ++ (b ++ c)))%string.
  f_equal. exact IH.
Qed.

Lemma string_app_nil_r (a : string) : (a ++ "" = a)%string.
Proof.
  induction a as [| x a IH]; [reflexivity |].
  change (String x (a ++ "") = String x a)%string. f_equal. exact IH.
Qed.

Lemma digit_not_space n : py_isspace (digit n) = false.
Proof.
  destruct n as [| p | p]; try reflexivity.
  do 4 (try destruct p as [p | p |]; try reflexivity).
Qed.

Lemma first_token_prefix s rest :
  free_of_whitespace s = true ->
  first_token (s ++ String " " rest) = s.
Proof.
  induction s as [| c s IH]; simpl; [reflexivity |].
  intros H. apply andb_true_iff in H as [Hc Hs].
  destruct (Ascii.eqb_spec c " "%char) as [-> | _]; [discriminate |].
  rewrite (IH Hs). reflexivity.
Qed.

Lemma rstrip_keeps s c :
  py_isspace c = false ->
  rstrip (s ++ String c "") = (s ++ String c "")%string.
Proof.
  intros Hc. induction s as [| x s IH]; simpl.
  - rewrite Hc. reflexivity.
  - rewrite IH. destruct s; reflexivity.
Qed.

Lemma lstrip_only_whitespace s rest :
  only_whitespace s = true -> lstrip (s ++ rest) = lstrip rest.
Proof.
  induction s as [| c s IH]; simpl; [reflexivity |].
  intros H. apply andb_true_iff in H as [Hc Hs]. rewrite Hc. auto.
Qed.

Lemma spaces_only_whitespace n : only_whitespace (spaces n) = true.
Proof. induction n as [| n IH]; simpl; [reflexivity | exact IH]. Qed.

(** A prompt line before [strip]: it ends in the last digit of the
    seconds, which [rstrip] keeps. *)
Lemma prompt_line_rstrip (a b : string) t :
  rstrip (a ++ " | " ++ b ++ " | " ++ strftime_HMS t)
  = (a ++ " | " ++ b ++ " | " ++ strftime_HMS t)%string.
Proof.
  unfold strftime_HMS, two_digits.
  set (s := Datetime.whole_seconds t).
  set (last := digit ((s mod 60) mod 10)).
  replace (a ++ " | " ++ b ++ " | "
           ++ String (digit ((s / 3600) mod 24 / 10))
                (String (digit (((s / 3600) mod 24) mod 10)) "")
           ++ ":" ++ String (digit ((s / 60) mod 60 / 10))
                       (String (digit (((s / 60) mod 60) mod 10)) "")
           ++ ":" ++ String (digit (s mod 60 / 10)) (String last ""))%string
    with ((a ++ " | " ++ b ++ " | "
           ++ String (digit ((s / 3600) mod 24 / 10))
                (String (digit (((s / 3600) mod 24) mod 10)) "")
           ++ ":" ++ String (digit ((s / 60) mod 60 / 10))
                       (String (digit (((s / 60) mod 60) mod 10)) "")
           ++ ":" ++ String (digit (s mod 60 / 10)) "") ++ String last "")%string.
  - apply rstrip_keeps. apply digit_not_space.
  - rewrite !string_app_assoc. reflexivity.
Qed.

Lemma ljust_then_space (s : string) width rest :
  exists rest', (ljust s width ++ " | " ++ rest = s ++ String " " rest')%string.
Proof.
  unfold ljust. destruct (width - String.length s)%nat as [| k]; simpl.
  - rewrite string_app_nil_r. eexists. reflexivity.
  - rewrite string_app_assoc. simpl. eexists. reflexivity.
Qed.

(** X14: from a result to the host.  When the address of a hit is not
    empty and holds no whitespace, the first space-delimited token of
    its prompt line is that address, whatever its length, its name and
    its time; so choosing the line of a hit runs [ssh] on the address of
    that hit. *)
Theorem connect_runs_ssh_on_chosen_address inquirer_prompt results h :
  In h results ->
  inquirer_prompt (List.map prompt_choice results) = Some (prompt_choice h) ->
  private_ip_address (hit_doc h) <> ""%string ->
  free_of_whitespace (private_ip_address (hit_doc h)) = true ->
  first_token (prompt_choice h) = private_ip_address (hit_doc h)
  /\ connect inquirer_prompt results
     = Some ("ssh " ++ private_ip_address (hit_doc h))%string.
Proof.
  intros Hin Hchosen Hne Hfree.
  assert (Htoken : first_token (prompt_choice h) = private_ip_address (hit_doc h)).
  { unfold prompt_choice, strip. rewrite prompt_line_rstrip.
    destruct (ljust_then_space (private_ip_address (hit_doc h)) 15
                (ljust (name (hit_doc h)) 40 ++ " | "
                 ++ strftime_HMS (created_at (hit_doc h))))
      as [rest Hrest].
    rewrite Hrest.
    destruct (private_ip_address (hit_doc h)) as [| c ip] eqn:Hip; [congruence |].
    simpl in Hfree. apply andb_true_iff in Hfree as [Hc Hrestfree].
    apply negb_true_iff in Hc.
    change (String c ip ++ String " " rest)%string
      with (String c (ip ++ String " " rest)).
    cbn [lstrip]. rewrite Hc.
    change (String c (ip ++ String " " rest))
      with (String c ip ++ String " " rest)%string.
    apply first_token_prefix. simpl. rewrite Hc, Hrestfree. reflexivity. }
  split; [exact Htoken |].
  unfold connect. destruct results as [| r results]; [destruct Hin |].
  rewrite Hchosen, Htoken. reflexivity.
Qed.

Lemma connect_runs_ssh_on_chosen_address_witness :
  let h1 := Hit (Document "10.0.0.4" "prod" "edge" noon) 2 in
  let h2 := Hit (Document "ip-10-0-0-2.eu-west-1.compute.internal" "db-1" "prod" noon) 1 in
  let pick (choices : list string) := List.nth_error choices 1 in
  In h2 [h1; h2]
  /\ pick (List.map prompt_choice [h1; h2]) = Some (prompt_choice h2)
  /\ connect pick [h1; h2] = Some "ssh ip-10-0-0-2.eu-west-1.compute.internal"%string.
Proof.
  intros h1 h2 pick.
  assert (Hin : In h2 [h1; h2]) by (right; left; reflexivity).
  split; [exact Hin |]. split; [reflexivity |].
  apply (connect_runs_ssh_on_chosen_address pick [h1; h2] h2 Hin eq_refl);
    [discriminate | reflexivity].
Defined.

(** X15: a hit without an address.  When the stored address is empty
    or all whitespace, [strip] removes the padded first column, the line
    starts with the column separator, and choosing it runs [ssh] on a
    bar. *)
Theorem connect_runs_ssh_on_bar_without_address inquirer_prompt results h :
  In h results ->
  inquirer_prompt (List.map prompt_choice results) = Some (prompt_choice h) ->
  only_whitespace (private_ip_address (hit_doc h)) = true ->
  connect inquirer_prompt results = Some "ssh |"%string.
Proof.
  intros Hin Hchosen Hblank.
  assert (Htoken : first_token (prompt_choice h) = "|"%string).
  { unfold prompt_choice, strip. rewrite prompt_line_rstrip.
    unfold ljust at 1. rewrite string_app_assoc.
    rewrite (lstrip_only_whitespace _ _ Hblank).
    rewrite (lstrip_only_whitespace _ _ (spaces_only_whitespace _)).
    reflexivity. }
  unfold connect. destruct results as [| r results]; [destruct Hin |].
  rewrite Hchosen, Htoken. reflexivity.
Qed.

Lemma connect_runs_ssh_on_bar_without_address_witness :
  let h := Hit (Document "" "web-1" "prod" noon) 1 in
  let pick (choices : list string) := List.nth_error choices 0 in
  In h [h]
  /\ pick (List.map prompt_choice [h]) = Some (prompt_choice h)
  /\ only_whitespace (private_ip_address (hit_doc h)) = true
  /\ connect pick [h] = Some "ssh |"%string.
Proof.
  intros h pick.
  assert (Hin : In h [h]) by (left; reflexivity).
  split; [exact Hin |]. split; [reflexivity |]. split; [reflexivity |].
  apply (connect_runs_ssh_on_bar_without_address pick [h] h Hin eq_refl eq_refl).
Defined.

(** The line of a hit, as displayed. *)
Example prompt_choice_line :
  prompt_choice (Hit (Document "10.0.0.4" "prod" "edge" (noon + Datetime.of_seconds 754)) 2)
  = "10.0.0.4        | prod                                     | 12:12:34"%string.
Proof. reflexivity. Qed.

(** * The script as a whole *)

Lemma bind_val {A B} (m : M A) (k : A -> M B) w a w1 :
  m w = Val a w1 -> bind m k w = k a w1.
Proof. intros H. unfold bind. rewrite H. reflexivity. Qed.

Lemma search_invocation_run qparse weighting term w q ix :
  term <> ""%string ->
  qparse term = Some q ->
  index_dir w = Some ix ->
  search_invocation qparse weighting term w
  = Val (searcher_search weighting q 15 (documents ix))
        (set_log (log w ++ [LogSearching term;
                            LogFound (List.length
                                        (searcher_search weighting q 15 (documents ix)))]) w).
Proof.
  intros Hne Hq Hix. unfold search_invocation.
  destruct term as [| c rest]; [congruence |]. simpl.
  erewrite bind_val by reflexivity.
  erewrite bind_val by (apply search_run; [exact Hq | exact Hix]).
  erewrite bind_val by reflexivity.
  unfold ret, set_log; simpl. rewrite <- List.app_assoc. reflexivity.
Qed.

Lemma lookup_all_single cfg describe w :
  List.Forall (List.Forall (complete cfg))
    (describe (List.map (fun f => Ec2Filter (filter_Name f) (filter_Values f)) (filters cfg))) ->
  exists instances w1,
    lookup_all describe [cfg] [] w = Val instances w1
    /\ lookup cfg describe w = Val instances w1.
Proof.
  intros Hall. destruct (lookup_complete_returns cfg describe w Hall) as (i & w1 & Hrun).
  exists i, w1. split; [| exact Hrun]. simpl.
  erewrite bind_val by exact Hrun. reflexivity.
Qed.

(** What a returning [lookup] leaves of the world: the clock, the
    state file and the index as they were, every record pointing at one
    list, and that list holding the tag values of the response. *)
Lemma lookup_returns_frame cfg describe w instances w1 :
  lookup cfg describe w = Val instances w1 ->
  clock w1 = clock w /\ reads w1 = reads w /\ utc_offset w1 = utc_offset w
  /\ ttl_file w1 = ttl_file w /\ index_dir w1 = index_dir w
  /\ List.map si_ip_address instances
     = List.map (instance_address cfg)
         (List.concat (describe (List.map (fun f => Ec2Filter (filter_Name f) (filter_Values f))
                                          (filters cfg))))
  /\ forall i, In i instances ->
       heap w1 !!! si_fields i
       = List.concat (List.map tag_values
           (List.concat (describe (List.map (fun f => Ec2Filter (filter_Name f) (filter_Values f))
                                            (filters cfg))))).
Proof.
  intros Hrun. pose proof (lookup_returns_complete _ _ _ _ _ Hrun) as Hall.
  rewrite (lookup_run cfg describe w Hall) in Hrun. injection Hrun as <- <-. simpl.
  repeat split.
  - rewrite List.map_map. reflexivity.
  - intros i Hi. apply List.in_map_iff in Hi as (x & <- & _). simpl.
    apply lookup_total_correct, lookup_insert_eq.
Qed.



Lemma gate_not_due_within_ttl cfg w t :
  ttl_file w = Some (Pickled (PyDatetime t)) ->
  0 <= Datetime.diff (clock w (reads w)) t < Datetime.of_seconds (ttl cfg + 1) ->
  exists w', should_index cfg w = Val false w'
    /\ ttl_file w' = ttl_file w /\ index_dir w' = index_dir w.
Proof.
  intros Hfile Hnear.
  rewrite (should_index_persisted cfg w t Hfile). unfold gate_outcome.
  set (d := Datetime.diff _ _) in *.
  assert (Hs : Datetime.seconds d <= ttl cfg).
  { pose proof (seconds_le_whole d ltac:(lia)) as Hle.
    assert (Datetime.whole_seconds d < ttl cfg + 1).
    { unfold Datetime.whole_seconds, Datetime.of_seconds, Datetime.us_per_second in *.
      apply Z.div_lt_upper_bound; lia. }
    lia. }
  destruct (Z.gtb_spec (Datetime.seconds d) (ttl cfg)); [lia |].
  eexists. split; [reflexivity |]. simpl. auto.
Qed.

(** X17: a run inside the TTL window serves the old index.  With a
    state file whose timestamp is less than [ttl + 1] seconds old, the
    script still performs the lookup, but indexes none of what it found:
    the index and the state file are as before and the query is
    answered from the documents of the previous build. *)
Theorem script_within_ttl_serves_old_index
  providers describe cfg index_cfg qparse weighting term q w t ix :
  provider_instances providers = [cfg] ->
  List.Forall (List.Forall (complete cfg))
    (describe (List.map (fun f => Ec2Filter (filter_Name f) (filter_Values f)) (filters cfg))) ->
  ttl_file w = Some (Pickled (PyDatetime t)) ->
  0 <= Datetime.diff (clock w (reads w)) t < Datetime.of_seconds (ttl index_cfg + 1) ->
  index_dir w = Some ix ->
  term <> ""%string ->
  qparse term = Some q ->
  exists hits w',
    script providers describe index_cfg qparse weighting term w = Val hits w'
    /\ index_dir w' = Some ix
    /\ ttl_file w' = ttl_file w
    /\ hits = searcher_search weighting q 15 (documents ix).
Proof.
  intros Hprov Hall Hfile Hnear Hdir Hne Hq.
  destruct (lookup_all_single cfg describe w Hall) as (instances & w1 & Hall1 & Hrun1).
  destruct (lookup_returns_frame cfg describe w instances w1 Hrun1)
    as (Hc1 & Hr1 & _ & Hf1 & Hi1 & _).
  set (w2 := set_log (log w1 ++ [LogUsingIndex]) w1).
  assert (Hget : get_index w1 = Val tt w2).
  { unfold get_index. rewrite Hi1, Hdir. reflexivity. }
  destruct (gate_not_due_within_ttl index_cfg w2 t) as (w3 & Hgate & Hf3 & Hi3).
  { simpl. congruence. }
  { simpl. rewrite Hc1, Hr1. exact Hnear. }
  assert (Hupd : update_index index_cfg instances w2
                 = Val tt (set_log (log w3 ++ [LogStillValid]) w3)).
  { unfold update_index. erewrite bind_val by exact Hgate. reflexivity. }
  assert (Hdir3 : index_dir (set_log (log w3 ++ [LogStillValid]) w3) = Some ix).
  { simpl. rewrite Hi3. simpl. congruence. }
  eexists _, _. split.
  - unfold script. rewrite Hprov.
    erewrite bind_val by exact Hall1.
    erewrite bind_val by exact Hget.
    erewrite bind_val by exact Hupd.
    apply (search_invocation_run qparse weighting term _ q ix Hne Hq Hdir3).
  - simpl. split; [rewrite Hi3; simpl; congruence |].
    split; [rewrite Hf3; simpl; congruence | reflexivity].
Qed.

Lemma script_within_ttl_serves_old_index_witness :
  let t := noon - Datetime.of_seconds 10 in
  let w := world_at noon (Some (Pickled (PyDatetime t))) (Some example_index) in
  let providers := [("aws", example_config)]%string in
  ttl_file w = Some (Pickled (PyDatetime t))
  /\ index_dir w = Some example_index
  /\ exists hits w',
       script providers example_ec2 (IndexConfig 300) example_parser example_weighting
         "prod" w
       = Val hits w'
       /\ index_dir w' = Some example_index
       /\ List.length hits = 3%nat.
Proof.
  intros t w providers.
  assert (H4 : 0 <= Datetime.diff (clock w (reads w)) t
               < Datetime.of_seconds (ttl (IndexConfig 300) + 1))
    by (vm_compute; split; congruence).
  assert (H6 : "prod"%string <> ""%string) by discriminate.
  split; [reflexivity |]. split; [reflexivity |].
  destruct (script_within_ttl_serves_old_index providers example_ec2 example_config
              (IndexConfig 300) example_parser example_weighting "prod" (Term "tags" "prod")
              w t example_index eq_refl example_response_complete eq_refl H4 eq_refl H6 eq_refl)
    as (hits & w' & Hrun & Hdir & _ & Hhits).
  exists hits, w'. split; [exact Hrun |]. split; [exact Hdir |].
  rewrite Hhits. reflexivity.
Defined.
